(** * Temporal gap filling of a 3-D volume: [interpolate_numba]

    Shallow embedding of the kernel of [1D_interpolation.ipynb]
    (cell "1D interpolation with numba") and the properties of it that the
    specification states.

    Conventions of the embedding.
    - A NumPy array is a dtype, a shape and a flat C-ordered buffer of
      integers ([Z]), each inside the range of the dtype.
    - Every element read goes through [getitem], which faults ([None]) on an
      index outside the array along any axis; a fault aborts the call.  A
      successful call therefore never used a negative or past-the-end index.
    - The notebook runs on a Python 2 kernel (kernelspec [python2],
      language_info version 2.7.10) and has no [from __future__ import
      division]: [/] between two integers is classic division, which rounds
      toward minus infinity, and [int(...)] of an integer is that integer.
      (Under Python 3 the same line would be a true division followed by a
      truncation toward zero.)
    - Inside the compiled function integer arithmetic is done on 64-bit
      machine integers: the sum of two samples of an [int8], [int16] or
      [int32] array is exact, the sum of two [int64] samples wraps around.
    - Storing into the [int16] result keeps the low 16 bits (two's
      complement). *)

From stdpp Require Import base numbers option list list_numbers.

Local Open Scope Z_scope.

(** * Part I: the program *)

(** ** Machine integers *)

(** Two's-complement wrap-around of [n] to a signed integer of [w] bits. *)
Definition wrap (w : Z) (n : Z) : Z :=
  (n + 2 ^ (w - 1)) mod 2 ^ w - 2 ^ (w - 1).

(** [n] is representable as a signed integer of [w] bits. *)
Definition in_range (w : Z) (n : Z) : Prop :=
  - 2 ^ (w - 1) <= n < 2 ^ (w - 1).

(** Signed integer dtypes of NumPy. *)
Inductive dtype : Type := int8 | int16 | int32 | int64.

Definition bits (d : dtype) : Z :=
  match d with int8 => 8 | int16 => 16 | int32 => 32 | int64 => 64 end.

Global Instance dtype_eq_dec : EqDecision dtype.
Proof. solve_decision. Defined.

(** [a + b] on 64-bit integers. *)
Definition int_add (a b : Z) : Z := wrap 64 (a + b).

(** [a / b] of Python 2 on integers (classic division: the floor of the
    quotient); [b] is the literal [2] at every use. *)
Definition int_div (a b : Z) : Z := a / b.

(** [int(v)] on an integer. *)
Definition int (v : Z) : Z := v.

(** ** Arrays *)

Record ndarray : Type := mk_ndarray {
  arr_dtype : dtype;
  shape0 : nat;          (* arr.shape[0], the time extent T *)
  shape1 : nat;          (* arr.shape[1], rows *)
  shape2 : nat;          (* arr.shape[2], columns *)
  buffer : list Z        (* C order: (z, y, x) lives at (z * R + y) * C + x *)
}.

(** A well-formed array: the buffer has one cell per coordinate and every
    cell holds a value of the array's dtype. *)
Definition wf (arr : ndarray) : Prop :=
  length (buffer arr) = (shape0 arr * shape1 arr * shape2 arr)%nat ∧
  Forall (in_range (bits (arr_dtype arr))) (buffer arr).

Definition in_bounds (arr : ndarray) (z y x : Z) : bool :=
  bool_decide (0 <= z < Z.of_nat (shape0 arr)) &&
  bool_decide (0 <= y < Z.of_nat (shape1 arr)) &&
  bool_decide (0 <= x < Z.of_nat (shape2 arr)).

Definition offset (arr : ndarray) (z y x : Z) : nat :=
  Z.to_nat ((z * Z.of_nat (shape1 arr) + y) * Z.of_nat (shape2 arr) + x).

(** [arr[z,y,x]] *)
Definition getitem (arr : ndarray) (z y x : Z) : option Z :=
  if in_bounds arr z y x then buffer arr !! offset arr z y x else None.

(** [arr[z,y,x] = v]: the value is converted to the array's dtype. *)
Definition setitem (arr : ndarray) (z y x : Z) (v : Z) : option ndarray :=
  if in_bounds arr z y x then
    Some (mk_ndarray (arr_dtype arr) (shape0 arr) (shape1 arr) (shape2 arr)
       (<[offset arr z y x := wrap (bits (arr_dtype arr)) v]> (buffer arr)))
  else None.

(** [np.zeros_like(arr, dtype=d)] *)
Definition zeros_like (arr : ndarray) (d : dtype) : ndarray :=
  mk_ndarray d (shape0 arr) (shape1 arr) (shape2 arr)
    (replicate (shape0 arr * shape1 arr * shape2 arr) 0).

(** [len(arr[:,y,x])]: the slice needs [y] and [x] to exist. *)
Definition len_slice0 (arr : ndarray) (y x : Z) : option Z :=
  if bool_decide (0 <= y < Z.of_nat (shape1 arr)) &&
     bool_decide (0 <= x < Z.of_nat (shape2 arr))
  then Some (Z.of_nat (shape0 arr)) else None.

(** ** Loops *)

(** [range(n)] *)
Definition range (n : nat) : list Z := seqZ 0 (Z.of_nat n).

(** [for i in idxs: s = body(i, s)], aborting at the first fault. *)
Fixpoint for_loop {St : Type} (idxs : list Z) (body : Z → St → option St)
    (s : St) : option St :=
  match idxs with
  | [] => Some s
  | i :: rest => s' ← body i s; for_loop rest body s'
  end.

(** ** The kernel *)

(** The value computed for position [(z, y, x)]: lines 182-225 of the
    notebook.  All reads are from [arr], the input. *)
Definition new_value (arr : ndarray) (no_data : Z) (z y x : Z) : option Z :=
  value ← getitem arr z y x;
  if bool_decide (z = 0) then Some value
  else
    len ← len_slice0 arr 0 0;
    if bool_decide (z = len - 1) then Some value
    else if bool_decide (value = no_data) then
      left ← getitem arr (z - 1) y x;
      right ← getitem arr (z + 1) y x;
      if bool_decide (left ≠ no_data) && bool_decide (right ≠ no_data) then
        Some (int_div (int_add left right) 2)
      else if bool_decide (left = no_data) && bool_decide (z = 1) then
        Some value
      else
        at_right_edge ←
          (if bool_decide (right = no_data)
           then len' ← len_slice0 arr 0 0; Some (bool_decide (z = len' - 2))
           else Some false);
        if at_right_edge : bool then Some value
        else if bool_decide (left = no_data) && bool_decide (right ≠ no_data)
        then
          more_left ← getitem arr (z - 2) y x;
          if bool_decide (more_left = no_data) then Some value
          else Some (int_div (int_add more_left right) 2)
        else if bool_decide (left ≠ no_data) && bool_decide (right = no_data)
        then
          more_right ← getitem arr (z + 2) y x;
          if bool_decide (more_right = no_data) then Some value
          else Some (int_div (int_add more_right left) 2)
        else if bool_decide (left = no_data) && bool_decide (right = no_data)
        then
          more_left ← getitem arr (z - 2) y x;
          more_right ← getitem arr (z + 2) y x;
          if bool_decide (more_left ≠ no_data) &&
             bool_decide (more_right ≠ no_data)
          then Some (int_div (int_add more_left more_right) 2)
          else Some value
        else Some value
    else Some value.

(** One iteration of the innermost loop: compute, then
    [result[z,y,x] = int(new_value)]. *)
Definition loop_z (arr : ndarray) (no_data : Z) (x y : Z) (z : Z)
    (result : ndarray) : option ndarray :=
  v ← new_value arr no_data z y x;
  setitem result z y x (int v).

Definition loop_y (arr : ndarray) (no_data : Z) (x : Z) (y : Z)
    (result : ndarray) : option ndarray :=
  for_loop (range (shape0 arr)) (loop_z arr no_data x y) result.

Definition loop_x (arr : ndarray) (no_data : Z) (x : Z)
    (result : ndarray) : option ndarray :=
  for_loop (range (shape1 arr)) (loop_y arr no_data x) result.

(** [interpolate_numba(arr, no_data)] *)
Definition interpolate_numba (arr : ndarray) (no_data : Z) : option ndarray :=
  let result := zeros_like arr int16 in
  for_loop (range (shape2 arr)) (loop_x arr no_data) result.

(** The default of the [no_data] argument. *)
Definition no_data_default : Z := -32768.

(** The trace of [arr] at row [y], column [x]: [arr[:,y,x]] as a list. *)
Definition trace (arr : ndarray) (y x : Z) : option (list Z) :=
  mapM (λ z, getitem arr z y x) (range (shape0 arr)).

(** ** Predicates used to state the properties *)

(** [res] has the shape of [arr]. *)
Definition same_shape (arr res : ndarray) : Prop :=
  shape0 res = shape0 arr ∧ shape1 res = shape1 arr ∧
  shape2 res = shape2 arr.

(** The buffer of [arr] has one cell per coordinate. *)
Definition full (arr : ndarray) : Prop :=
  length (buffer arr) = (shape0 arr * shape1 arr * shape2 arr)%nat.

(** Cell [(z, y, x)] of [res] holds the value computed from [arr] for it,
    converted to [int16]. *)
Definition filled (arr : ndarray) (no_data : Z) (res : ndarray) (z y x : Z)
  : Prop :=
  ∃ v, new_value arr no_data z y x = Some v ∧
       getitem res z y x = Some (wrap 16 v).

(** [res] is a well-formed [int16] array of the shape of [arr] whose cells
    in [D] are filled. *)
Definition filled_on (arr : ndarray) (no_data : Z) (D : Z → Z → Z → Prop)
    (res : ndarray) : Prop :=
  arr_dtype res = int16 ∧ same_shape arr res ∧ wf res ∧
  ∀ z y x, D z y x → filled arr no_data res z y x.

(** ** Concrete volumes *)

(** The worked example of the specification, as a volume of one trace. *)
Definition example_trace : list Z := [5; -32768; 7; -32768; -32768; 9; -32768].
Definition example_filled : list Z := [5; 6; 7; 8; 8; 9; -32768].
Definition example_volume : ndarray := mk_ndarray int16 7 1 1 example_trace.

(** Two time steps only. *)
Definition short_volume : ndarray := mk_ndarray int16 2 1 1 [-32768; 4].

(** 32-bit volumes with samples outside the 16-bit range. *)
Definition wide_volume : ndarray :=
  mk_ndarray int32 3 1 1 [40000; -32768; 40000].
Definition wide_valid_volume : ndarray := mk_ndarray int32 3 1 1 [1; 40000; 3].
Definition wide_triple_volume : ndarray :=
  mk_ndarray int32 5 1 1 [40000; -32768; -32768; -32768; 40000].

(** 32-bit volumes used with the sentinel 40000. *)
Definition wide_sentinel_volume : ndarray :=
  mk_ndarray int32 3 1 1 [40000; 40000; 7].
Definition wide_sentinel_triple_volume : ndarray :=
  mk_ndarray int32 5 1 1 [1; 40000; 40000; 40000; 2].

(** Neighbours with a negative odd sum. *)
Definition odd_volume : ndarray := mk_ndarray int16 3 1 1 [-2; -32768; -1].
Definition odd_triple_volume : ndarray :=
  mk_ndarray int16 5 1 1 [-2; -32768; -32768; -32768; -1].

(** Sentinels at and next to the boundaries. *)
Definition edge_volume : ndarray :=
  mk_ndarray int16 4 1 1 [-32768; 3; -32768; -32768].
Definition double_gap_volume : ndarray :=
  mk_ndarray int16 5 1 1 [-32768; -32768; 4; -32768; -32768].

(** No sentinel at all. *)
Definition clean_volume : ndarray := mk_ndarray int16 4 1 1 [3; -5; 8; 13].

(** Two volumes with the same trace at column 0 and different dtypes and
    neighbours at column 1. *)
Definition left_volume : ndarray :=
  mk_ndarray int16 3 1 2 [1; -32768; -32768; -32768; 3; -32768].
Definition right_volume : ndarray :=
  mk_ndarray int32 3 1 2 [1; 10; -32768; 70000; 3; 30].

(** ** The rule as a decision table *)

(** The nearest valid sample on one side of a gap: the neighbour [near] if
    it is valid, else the sample [far] two steps away if that exists and is
    valid.  A missing read ([None]) is a position outside the trace. *)
Definition nearest_valid (no_data : Z) (near far : option Z) : option Z :=
  match near with
  | Some a =>
      if bool_decide (a = no_data) then
        match far with
        | Some b => if bool_decide (b = no_data) then None else Some b
        | None => None
        end
      else Some a
  | None => None
  end.

Definition left_anchor (arr : ndarray) (no_data : Z) (z y x : Z) : option Z :=
  nearest_valid no_data (getitem arr (z - 1) y x) (getitem arr (z - 2) y x).

Definition right_anchor (arr : ndarray) (no_data : Z) (z y x : Z) : option Z :=
  nearest_valid no_data (getitem arr (z + 1) y x) (getitem arr (z + 2) y x).

(** A valid sample is kept; a sentinel with a valid sample within two steps
    on each side becomes the average of the nearest ones; any other sentinel
    is kept. *)
Definition fill_rule (arr : ndarray) (no_data : Z) (z y x : Z) : option Z :=
  value ← getitem arr z y x;
  if bool_decide (value = no_data) then
    match left_anchor arr no_data z y x, right_anchor arr no_data z y x with
    | Some a, Some b => Some (int_div (int_add a b) 2)
    | _, _ => Some value
    end
  else Some value.

(** ** More concrete volumes *)

Definition two_gap_volume : ndarray :=
  mk_ndarray int16 5 1 1 [3; -32768; -32768; 8; 1].
Definition long_gap_volume : ndarray :=
  mk_ndarray int16 6 1 1 [1; -32768; -32768; -32768; -32768; 2].
Definition example_volume_reversed : ndarray :=
  mk_ndarray int16 7 1 1 (reverse example_trace).

(** ** Tactics *)

(** Settles the tests of the kernel once the reads are known. *)
Ltac settle_tests :=
  repeat (case_bool_decide; simpl); try done; try lia; try congruence.

(** Rewrites the reads of the kernel with the hypotheses about [getitem]. *)
Ltac known_reads :=
  repeat match goal with
         | H : getitem ?arr ?z ?y ?x = Some _
           |- context [getitem ?arr ?z ?y ?x] => rewrite H; simpl
         end.

(** Proves a concrete array well formed. *)
Ltac concrete_wf :=
  split; [reflexivity | repeat constructor; unfold in_range; simpl; lia].

(** * Part II: properties *)

(** ** Machine integers *)

Lemma wrap_in_range (w n : Z) : 0 < w → in_range w (wrap w n).
Proof.
  intros Hw. unfold in_range, wrap.
  assert (2 ^ w = 2 * 2 ^ (w - 1)) as E.
  { rewrite <- Z.pow_succ_r by lia. f_equal. lia. }
  assert (0 < 2 ^ (w - 1)) by (apply Z.pow_pos_nonneg; lia).
  pose proof (Z.mod_pos_bound (n + 2 ^ (w - 1)) (2 ^ w)). lia.
Qed.

Lemma wrap_id (w n : Z) : in_range w n → wrap w n = n.
Proof.
  unfold in_range, wrap. intros Hn.
  destruct (decide (0 < w)) as [Hw|Hw].
  - assert (2 ^ w = 2 * 2 ^ (w - 1)) as E.
    { rewrite <- Z.pow_succ_r by lia. f_equal. lia. }
    rewrite Z.mod_small by lia. lia.
  - destruct (decide (w = 0)) as [->|].
    + simpl in *. lia.
    + rewrite (Z.pow_neg_r 2 (w - 1)) in * by lia. lia.
Qed.

Lemma in_range_mono (w w' n : Z) :
  0 < w ≤ w' → in_range w n → in_range w' n.
Proof.
  unfold in_range. intros Hw Hn.
  assert (2 ^ (w - 1) ≤ 2 ^ (w' - 1)) by (apply Z.pow_le_mono_r; lia). lia.
Qed.

(** [s / 2] is the floor of the half of [s]. *)
Lemma floor_half (s : Z) : 2 * (s / 2) <= s < 2 * (s / 2) + 2.
Proof. pose proof (Z.div_mod s 2). pose proof (Z.mod_pos_bound s 2). lia. Qed.

(** The average of two 16-bit values: the 64-bit sum does not wrap and the
    quotient fits in 16 bits again. *)
Lemma average_in_range (a b : Z) :
  in_range 16 a → in_range 16 b →
  int_add a b = a + b ∧ in_range 16 (int_div (a + b) 2).
Proof.
  unfold in_range, int_add, int_div. intros Ha Hb.
  change (2 ^ (16 - 1)) with 32768 in *.
  split.
  - apply wrap_id. unfold in_range.
    change (2 ^ (64 - 1)) with 9223372036854775808. lia.
  - pose proof (floor_half (a + b)). lia.
Qed.

(** ** Arrays *)

Section arrays.
Implicit Types (arr res : ndarray) (z y x v : Z).

Lemma wf_full arr : wf arr → full arr.
Proof. by intros [? _]. Qed.

Lemma in_bounds_spec arr z y x :
  in_bounds arr z y x = true ↔
  0 <= z < Z.of_nat (shape0 arr) ∧ 0 <= y < Z.of_nat (shape1 arr) ∧
  0 <= x < Z.of_nat (shape2 arr).
Proof.
  unfold in_bounds. rewrite !andb_true_iff, !bool_decide_eq_true. tauto.
Qed.

Lemma in_bounds_same_shape arr res z y x :
  same_shape arr res → in_bounds res z y x = in_bounds arr z y x.
Proof. intros (E0 & E1 & E2). unfold in_bounds. by rewrite E0, E1, E2. Qed.

Lemma offset_same_shape arr res z y x :
  same_shape arr res → offset res z y x = offset arr z y x.
Proof. intros (E0 & E1 & E2). unfold offset. by rewrite E1, E2. Qed.

Lemma offset_lt arr z y x :
  in_bounds arr z y x = true →
  (offset arr z y x < shape0 arr * shape1 arr * shape2 arr)%nat.
Proof.
  rewrite in_bounds_spec. intros (Hz & Hy & Hx). unfold offset.
  apply Nat2Z.inj_lt. rewrite Z2Nat.id by nia. rewrite !Nat2Z.inj_mul.
  set (T := Z.of_nat (shape0 arr)) in *. set (R := Z.of_nat (shape1 arr)) in *.
  set (C := Z.of_nat (shape2 arr)) in *.
  assert (z * R + y + 1 ≤ T * R) by nia. nia.
Qed.

Lemma offset_inj arr z y x z' y' x' :
  in_bounds arr z y x = true → in_bounds arr z' y' x' = true →
  offset arr z y x = offset arr z' y' x' → z = z' ∧ y = y' ∧ x = x'.
Proof.
  rewrite !in_bounds_spec. intros (Hz & Hy & Hx) (Hz' & Hy' & Hx').
  unfold offset.
  set (R := Z.of_nat (shape1 arr)) in *. set (C := Z.of_nat (shape2 arr)) in *.
  intros E. apply Z2Nat.inj in E; [|nia..].
  assert (z * R + y = z' * R + y') as E1 by nia.
  assert (z = z') by nia. lia.
Qed.

Lemma getitem_is_Some arr z y x :
  full arr → in_bounds arr z y x = true → is_Some (getitem arr z y x).
Proof.
  intros Hf Hb. unfold getitem. rewrite Hb.
  apply lookup_lt_is_Some. rewrite Hf. by apply offset_lt.
Qed.

Lemma getitem_Some_in_bounds arr z y x v :
  getitem arr z y x = Some v → in_bounds arr z y x = true.
Proof. unfold getitem. by destruct (in_bounds arr z y x). Qed.

Lemma getitem_None arr z y x :
  full arr → getitem arr z y x = None ↔ in_bounds arr z y x = false.
Proof.
  intros Hf. split.
  - intros E. destruct (in_bounds arr z y x) eqn:Hb; [|done].
    destruct (getitem_is_Some arr z y x Hf Hb) as [v Hv]. congruence.
  - intros Hb. unfold getitem. by rewrite Hb.
Qed.

Lemma getitem_in_range arr z y x v :
  wf arr → getitem arr z y x = Some v → in_range (bits (arr_dtype arr)) v.
Proof.
  intros [_ Hr] Hv. unfold getitem in Hv.
  destruct (in_bounds arr z y x); [|done].
  rewrite Forall_forall in Hr. apply Hr. by eapply list_elem_of_lookup_2.
Qed.

Lemma setitem_is_Some res z y x v :
  in_bounds res z y x = true → is_Some (setitem res z y x v).
Proof. intros Hb. unfold setitem. rewrite Hb. eauto. Qed.

Section setitem.
Context (res res' : ndarray) (z y x v : Z).
Hypothesis Hset : setitem res z y x v = Some res'.

Lemma setitem_in_bounds : in_bounds res z y x = true.
Proof using Hset.
  unfold setitem in Hset. by destruct (in_bounds res z y x).
Qed.

Lemma setitem_same_shape : same_shape res res'.
Proof using Hset.
  unfold setitem in Hset. destruct (in_bounds res z y x); [|done].
  by injection Hset as <-.
Qed.

Lemma setitem_dtype : arr_dtype res' = arr_dtype res.
Proof using Hset.
  unfold setitem in Hset. destruct (in_bounds res z y x); [|done].
  by injection Hset as <-.
Qed.

Lemma setitem_full : full res → full res'.
Proof using Hset.
  unfold setitem, full in *. destruct (in_bounds res z y x); [|done].
  injection Hset as <-. simpl. by rewrite length_insert.
Qed.

Lemma setitem_wf : wf res → wf res'.
Proof using Hset.
  intros [Hf Hr]. split; [by apply setitem_full|].
  unfold setitem in Hset. destruct (in_bounds res z y x); [|done].
  injection Hset as <-. simpl. apply Forall_insert; [done|].
  apply wrap_in_range. by destruct (arr_dtype res).
Qed.

Lemma getitem_setitem_eq :
  full res → getitem res' z y x = Some (wrap (bits (arr_dtype res)) v).
Proof using Hset.
  intros Hf. pose proof setitem_in_bounds as Hb.
  unfold setitem in Hset. rewrite Hb in Hset. injection Hset as <-.
  unfold getitem, in_bounds, offset in *. simpl. rewrite Hb.
  apply list_lookup_insert_eq. rewrite Hf. apply (offset_lt res z y x Hb).
Qed.

Lemma getitem_setitem_ne z' y' x' :
  (z', y', x') ≠ (z, y, x) → getitem res' z' y' x' = getitem res z' y' x'.
Proof using Hset.
  intros Hne. pose proof setitem_in_bounds as Hb.
  unfold setitem in Hset. rewrite Hb in Hset. injection Hset as <-.
  unfold getitem. change (in_bounds _ z' y' x') with (in_bounds res z' y' x').
  destruct (in_bounds res z' y' x') eqn:Hb'; [|done]. simpl.
  change (offset _ z' y' x') with (offset res z' y' x').
  apply list_lookup_insert_ne. intros E.
  apply offset_inj in E as (-> & -> & ->); done.
Qed.
End setitem.

Lemma zeros_like_same_shape arr d : same_shape arr (zeros_like arr d).
Proof. done. Qed.

Lemma zeros_like_wf arr d : wf (zeros_like arr d).
Proof.
  split; simpl; [by rewrite length_replicate|].
  apply Forall_replicate. unfold in_range.
  assert (0 < 2 ^ (bits d - 1)) by (apply Z.pow_pos_nonneg; by destruct d).
  lia.
Qed.

(** Inside the loops some [(z, y, x)] exists, so row 0 and column 0 do. *)
Lemma len_slice0_Some arr z y x :
  in_bounds arr z y x = true →
  len_slice0 arr 0 0 = Some (Z.of_nat (shape0 arr)).
Proof.
  intros H%in_bounds_spec. unfold len_slice0.
  rewrite !bool_decide_eq_true_2; [done|lia..].
Qed.
End arrays.

(** ** Loops *)

(** Invariant rule for [for_loop]: [I done s] holds of the state [s] reached
    after the indices [done]. *)
Lemma for_loop_invariant {St : Type} (I : list Z → St → Prop)
    (body : Z → St → option St) (idxs : list Z) (s : St) :
  I [] s →
  (∀ done i s0, I done s0 → i ∈ idxs →
     ∃ s1, body i s0 = Some s1 ∧ I (done ++ [i]) s1) →
  ∃ s', for_loop idxs body s = Some s' ∧ I idxs s'.
Proof.
  intros Hinit Hstep.
  cut (∀ rest done s0, idxs = done ++ rest → I done s0 →
         ∃ s', for_loop rest body s0 = Some s' ∧ I idxs s').
  { intros H. by apply (H idxs [] s). }
  induction rest as [|i rest IH]; intros done s0 E HI.
  - rewrite app_nil_r in E. subst done. simpl. eauto.
  - destruct (Hstep done i s0 HI) as (s1 & Hb & HI1).
    { rewrite E, elem_of_app, elem_of_cons. auto. }
    simpl. rewrite Hb. simpl. apply (IH (done ++ [i])); [|done].
    by rewrite <- app_assoc.
Qed.

Lemma elem_of_range (n : nat) (i : Z) : i ∈ range n ↔ 0 <= i < Z.of_nat n.
Proof. unfold range. rewrite elem_of_seqZ. lia. Qed.

(** ** The loops fill every cell from the input *)

Section fill.
Context (arr : ndarray) (no_data : Z).
Hypothesis arr_full : full arr.
Implicit Types (res : ndarray) (z y x : Z) (D : Z → Z → Z → Prop).

Lemma filled_on_weaken D D' res :
  (∀ z y x, D' z y x → D z y x) →
  filled_on arr no_data D res → filled_on arr no_data D' res.
Proof. intros HD (? & ? & ? & H). unfold filled_on. eauto 10. Qed.

(** The kernel reads no cell outside the array. *)
Lemma new_value_is_Some z y x :
  in_bounds arr z y x = true → is_Some (new_value arr no_data z y x).
Proof using arr_full.
  intros Hb. pose proof Hb as (Hz & Hy & Hx)%in_bounds_spec.
  assert (∀ k, 0 <= k < Z.of_nat (shape0 arr) → is_Some (getitem arr k y x))
    as Hget.
  { intros k Hk. apply getitem_is_Some; [done|]. apply in_bounds_spec. lia. }
  unfold new_value. rewrite (len_slice0_Some arr z y x Hb).
  destruct (Hget z) as [value ->]; [lia|]. simpl.
  case_bool_decide as Hz0; [by eauto|].
  case_bool_decide as HzT; [by eauto|].
  case_bool_decide as Hv; [|by eauto].
  destruct (Hget (z - 1)) as [left ->]; [lia|].
  destruct (Hget (z + 1)) as [right ->]; [lia|]. simpl.
  destruct (decide (left = no_data)) as [Hl|Hl],
           (decide (right = no_data)) as [Hr|Hr];
    rewrite ?(bool_decide_eq_true_2 _ Hl), ?(bool_decide_eq_false_2 _ Hl),
            ?(bool_decide_eq_true_2 _ Hr), ?(bool_decide_eq_false_2 _ Hr),
            ?(bool_decide_eq_false_2 (left ≠ no_data)),
            ?(bool_decide_eq_true_2 (left ≠ no_data)),
            ?(bool_decide_eq_false_2 (right ≠ no_data)),
            ?(bool_decide_eq_true_2 (right ≠ no_data)) by auto; simpl;
    try (by eauto);
    repeat (case_bool_decide; simpl; try (by eauto)).
  - destruct (Hget (z - 2)) as [more_left ->]; [lia|].
    destruct (Hget (z + 2)) as [more_right ->]; [lia|]. simpl.
    repeat (case_bool_decide; simpl; try (by eauto)).
  - destruct (Hget (z - 2)) as [more_left ->]; [lia|]. simpl.
    repeat (case_bool_decide; simpl; try (by eauto)).
  - destruct (Hget (z + 2)) as [more_right ->]; [lia|]. simpl.
    repeat (case_bool_decide; simpl; try (by eauto)).
Qed.

(** One store: the cell is filled and the cells filled before stay so. *)
Lemma loop_z_step D res z y x :
  filled_on arr no_data D res → in_bounds arr z y x = true →
  ∃ res', loop_z arr no_data x y z res = Some res' ∧
          filled_on arr no_data
            (λ z' y' x', D z' y' x' ∨ (z', y', x') = (z, y, x)) res'.
Proof using arr_full.
  intros (Hd & Hs & Hw & HD) Hb. pose proof (wf_full _ Hw) as Hf.
  destruct (new_value_is_Some z y x Hb) as [v Hv].
  destruct (setitem_is_Some res z y x (int v)) as [res' Hset].
  { by rewrite (in_bounds_same_shape arr res). }
  exists res'. unfold loop_z. rewrite Hv. simpl. split; [done|].
  pose proof (setitem_same_shape _ _ _ _ _ _ Hset) as (E0 & E1 & E2).
  destruct Hs as (F0 & F1 & F2).
  split; [by rewrite (setitem_dtype _ _ _ _ _ _ Hset)|].
  split; [by repeat split; congruence|].
  split; [by eapply setitem_wf|].
  intros z' y' x' [HD'|E].
  - destruct (decide ((z', y', x') = (z, y, x))) as [E|Hne].
    + injection E as -> -> ->. exists v. split; [done|].
      rewrite (getitem_setitem_eq _ _ _ _ _ _ Hset Hf). by rewrite Hd.
    + destruct (HD _ _ _ HD') as (v' & Hv' & Hg). exists v'. split; [done|].
      by rewrite (getitem_setitem_ne _ _ _ _ _ _ Hset _ _ _ Hne).
  - injection E as -> -> ->. exists v. split; [done|].
    rewrite (getitem_setitem_eq _ _ _ _ _ _ Hset Hf). by rewrite Hd.
Qed.

(** The loop over [z] fills the trace at [(y, x)]. *)
Lemma loop_y_step D res y x :
  filled_on arr no_data D res →
  0 <= y < Z.of_nat (shape1 arr) → 0 <= x < Z.of_nat (shape2 arr) →
  ∃ res', loop_y arr no_data x y res = Some res' ∧
          filled_on arr no_data
            (λ z' y' x', D z' y' x' ∨
               (0 <= z' < Z.of_nat (shape0 arr) ∧ y' = y ∧ x' = x)) res'.
Proof using arr_full.
  intros HD Hy Hx. unfold loop_y.
  destruct (for_loop_invariant
    (λ done, filled_on arr no_data
       (λ z' y' x', D z' y' x' ∨ (z' ∈ done ∧ y' = y ∧ x' = x)))
    (loop_z arr no_data x y) (range (shape0 arr)) res) as (res' & Hrun & Hres').
  - eapply filled_on_weaken; [|exact HD].
    intros z' y' x' [?|(H%elem_of_nil & _)]; done.
  - intros done z res0 H0 Hz%elem_of_range.
    destruct (loop_z_step _ res0 z y x H0) as (res1 & Hstep & H1).
    { apply in_bounds_spec. lia. }
    exists res1. split; [done|]. eapply filled_on_weaken; [|exact H1].
    intros z' y' x' [?|(Hin & -> & ->)]; [by left; left|].
    apply elem_of_app in Hin as [?|E%list_elem_of_singleton]; subst; auto 6.
  - exists res'. split; [done|]. eapply filled_on_weaken; [|exact Hres'].
    intros z' y' x' [?|(Hz' & -> & ->)]; [by left|].
    right. by rewrite elem_of_range.
Qed.

(** The loop over [y] fills column [x]. *)
Lemma loop_x_step D res x :
  filled_on arr no_data D res → 0 <= x < Z.of_nat (shape2 arr) →
  ∃ res', loop_x arr no_data x res = Some res' ∧
          filled_on arr no_data
            (λ z' y' x', D z' y' x' ∨
               (in_bounds arr z' y' x' = true ∧ x' = x)) res'.
Proof using arr_full.
  intros HD Hx. unfold loop_x.
  destruct (for_loop_invariant
    (λ done, filled_on arr no_data
       (λ z' y' x', D z' y' x' ∨
          (0 <= z' < Z.of_nat (shape0 arr) ∧ y' ∈ done ∧ x' = x)))
    (loop_y arr no_data x) (range (shape1 arr)) res) as (res' & Hrun & Hres').
  - eapply filled_on_weaken; [|exact HD].
    intros z' y' x' [?|(_ & H%elem_of_nil & _)]; done.
  - intros done y res0 H0 Hy%elem_of_range.
    destruct (loop_y_step _ res0 y x H0 Hy Hx) as (res1 & Hstep & H1).
    exists res1. split; [done|]. eapply filled_on_weaken; [|exact H1].
    intros z' y' x' [?|(Hz' & Hin & ->)]; [by left; left|].
    apply elem_of_app in Hin as [?|E%list_elem_of_singleton]; subst; auto 6.
  - exists res'. split; [done|]. eapply filled_on_weaken; [|exact Hres'].
    intros z' y' x' [?|((Hz' & Hy' & _)%in_bounds_spec & ->)]; [by left|].
    right. by rewrite elem_of_range.
Qed.

(** The call returns, and its result is the [int16] array of the shape of
    the input whose every cell holds the value computed for it from the
    input. *)
Lemma interpolate_numba_filled :
  ∃ res, interpolate_numba arr no_data = Some res ∧
         filled_on arr no_data (λ z y x, in_bounds arr z y x = true) res.
Proof using arr_full.
  unfold interpolate_numba.
  destruct (for_loop_invariant
    (λ done, filled_on arr no_data
       (λ z' y' x', in_bounds arr z' y' x' = true ∧ x' ∈ done))
    (loop_x arr no_data) (range (shape2 arr)) (zeros_like arr int16))
    as (res' & Hrun & Hres').
  - split; [done|]. split; [apply zeros_like_same_shape|].
    split; [apply zeros_like_wf|]. by intros z y x (_ & H%elem_of_nil).
  - intros done x res0 H0 Hx%elem_of_range.
    destruct (loop_x_step _ res0 x H0 Hx) as (res1 & Hstep & H1).
    exists res1. split; [done|]. eapply filled_on_weaken; [|exact H1].
    intros z' y' x' (Hb & Hin).
    apply elem_of_app in Hin as [?|E%list_elem_of_singleton]; subst; auto 6.
  - exists res'. split; [done|]. eapply filled_on_weaken; [|exact Hres'].
    intros z' y' x' Hb. split; [done|].
    apply in_bounds_spec in Hb. rewrite elem_of_range. lia.
Qed.
End fill.

(** The form in which the claims use the loops: the result exists, is an
    [int16] array of the shape of the input, and each of its cells is the
    16-bit conversion of what [new_value] computes from the input. *)
Lemma interpolate_numba_spec (arr : ndarray) (no_data : Z) :
  wf arr →
  ∃ res, interpolate_numba arr no_data = Some res ∧
         arr_dtype res = int16 ∧ same_shape arr res ∧ wf res ∧
         ∀ z y x v, new_value arr no_data z y x = Some v →
                    getitem res z y x = Some (wrap 16 v).
Proof.
  intros Hf%wf_full.
  destruct (interpolate_numba_filled arr no_data Hf)
    as (res & Hrun & Hd & Hs & Hw & H).
  exists res. repeat (split; [done|]).
  intros z y x v Hv.
  destruct (H z y x) as (v' & Hv' & Hg); [|congruence].
  unfold new_value in Hv.
  destruct (getitem arr z y x) as [value|] eqn:E; [|done].
  by eapply getitem_Some_in_bounds.
Qed.

(** ** The rule for one sample *)

Section sample_rule.
Context (arr : ndarray) (no_data : Z).
Implicit Types (z y x v a b : Z).

Lemma len_slice0_read z y x v :
  getitem arr z y x = Some v →
  len_slice0 arr 0 0 = Some (Z.of_nat (shape0 arr)) ∧
  0 <= z < Z.of_nat (shape0 arr).
Proof.
  intros Hb%getitem_Some_in_bounds. split; [by eapply len_slice0_Some|].
  apply in_bounds_spec in Hb. lia.
Qed.

(** Rule 1, first sample. *)
Lemma new_value_first y x v :
  getitem arr 0 y x = Some v → new_value arr no_data 0 y x = Some v.
Proof. intros Hv. unfold new_value. by rewrite Hv. Qed.

(** Rule 1, last sample. *)
Lemma new_value_last z y x v :
  z = Z.of_nat (shape0 arr) - 1 →
  getitem arr z y x = Some v → new_value arr no_data z y x = Some v.
Proof.
  intros Hz Hv. destruct (len_slice0_read _ _ _ _ Hv) as [Hlen _].
  unfold new_value. rewrite Hv, Hlen. simpl. settle_tests.
Qed.

(** Rule 2, a valid sample. *)
Lemma new_value_valid z y x v :
  getitem arr z y x = Some v → v ≠ no_data →
  new_value arr no_data z y x = Some v.
Proof.
  intros Hv Hne. destruct (len_slice0_read _ _ _ _ Hv) as [Hlen _].
  unfold new_value. rewrite Hv, Hlen. simpl. settle_tests.
Qed.

(** Rule 3a, both neighbours valid. *)
Lemma new_value_both_valid z y x a b :
  0 < z < Z.of_nat (shape0 arr) - 1 →
  getitem arr z y x = Some no_data →
  getitem arr (z - 1) y x = Some a → getitem arr (z + 1) y x = Some b →
  a ≠ no_data → b ≠ no_data →
  new_value arr no_data z y x = Some (int_div (int_add a b) 2).
Proof.
  intros Hz Hv Ha Hb Hav Hbv. destruct (len_slice0_read _ _ _ _ Hv) as [Hlen _].
  unfold new_value. rewrite Hlen. known_reads. settle_tests.
Qed.

Hypothesis arr_full : full arr.

(** A position of a trace that has a sample can be read. *)
Lemma getitem_same_trace z y x v k :
  getitem arr z y x = Some v → 0 <= k < Z.of_nat (shape0 arr) →
  is_Some (getitem arr k y x).
Proof using arr_full.
  intros Hb%getitem_Some_in_bounds%in_bounds_spec Hk.
  apply getitem_is_Some; [done|]. apply in_bounds_spec. lia.
Qed.

(** Rule 3b, second sample after a missing first one. *)
Lemma new_value_left_edge y x v :
  getitem arr 0 y x = Some no_data → getitem arr 1 y x = Some v →
  new_value arr no_data 1 y x = Some v.
Proof using arr_full.
  intros H0 Hv. destruct (len_slice0_read _ _ _ _ Hv) as [Hlen Hz].
  destruct (decide (v = no_data)) as [->|Hne]; [|by apply new_value_valid].
  destruct (decide (1 = Z.of_nat (shape0 arr) - 1)) as [E|HT];
    [by apply new_value_last|].
  destruct (getitem_same_trace 1 y x _ 2 Hv) as [b Hb]; [lia|].
  unfold new_value. rewrite Hlen. change (1 - 1) with 0. change (1 + 1) with 2.
  known_reads. settle_tests.
Qed.

(** Rule 3c, last but one sample before a missing last one. *)
Lemma new_value_right_edge z y x v :
  z = Z.of_nat (shape0 arr) - 2 →
  getitem arr (z + 1) y x = Some no_data → getitem arr z y x = Some v →
  new_value arr no_data z y x = Some v.
Proof using arr_full.
  intros HzT H1 Hv. destruct (len_slice0_read _ _ _ _ Hv) as [Hlen Hz].
  destruct (decide (v = no_data)) as [->|Hne]; [|by apply new_value_valid].
  destruct (decide (z = 0)) as [->|Hz0]; [by apply new_value_first|].
  destruct (getitem_same_trace z y x _ (z - 1) Hv) as [a Ha]; [lia|].
  unfold new_value. rewrite Hlen. known_reads. settle_tests.
Qed.

(** Rule 3d, left neighbour missing, nothing valid two steps left. *)
Lemma new_value_left_unresolved z y x b :
  1 < z < Z.of_nat (shape0 arr) - 1 →
  getitem arr z y x = Some no_data →
  getitem arr (z - 1) y x = Some no_data → getitem arr (z + 1) y x = Some b →
  b ≠ no_data → getitem arr (z - 2) y x = Some no_data →
  new_value arr no_data z y x = Some no_data.
Proof.
  intros Hz Hv Hl Hr Hb Hml. destruct (len_slice0_read _ _ _ _ Hv) as [Hlen _].
  unfold new_value. rewrite Hlen. known_reads. settle_tests.
Qed.

(** Rule 3e, right neighbour missing, nothing valid two steps right. *)
Lemma new_value_right_unresolved z y x a :
  0 < z < Z.of_nat (shape0 arr) - 2 →
  getitem arr z y x = Some no_data →
  getitem arr (z - 1) y x = Some a → getitem arr (z + 1) y x = Some no_data →
  a ≠ no_data → getitem arr (z + 2) y x = Some no_data →
  new_value arr no_data z y x = Some no_data.
Proof.
  intros Hz Hv Hl Hr Ha Hmr. destruct (len_slice0_read _ _ _ _ Hv) as [Hlen _].
  unfold new_value. rewrite Hlen. known_reads. settle_tests.
Qed.

(** Rule 3d, left neighbour missing, a valid sample two steps left. *)
Lemma new_value_left_resolved z y x a b :
  1 < z < Z.of_nat (shape0 arr) - 1 →
  getitem arr z y x = Some no_data →
  getitem arr (z - 1) y x = Some no_data → getitem arr (z + 1) y x = Some b →
  b ≠ no_data → getitem arr (z - 2) y x = Some a → a ≠ no_data →
  new_value arr no_data z y x = Some (int_div (int_add a b) 2).
Proof.
  intros Hz Hv Hl Hr Hb Hml Ha. destruct (len_slice0_read _ _ _ _ Hv) as [Hlen _].
  unfold new_value. rewrite Hlen. known_reads. settle_tests.
Qed.

(** Rule 3e, right neighbour missing, a valid sample two steps right. *)
Lemma new_value_right_resolved z y x a b :
  0 < z < Z.of_nat (shape0 arr) - 2 →
  getitem arr z y x = Some no_data →
  getitem arr (z - 1) y x = Some a → getitem arr (z + 1) y x = Some no_data →
  a ≠ no_data → getitem arr (z + 2) y x = Some b → b ≠ no_data →
  new_value arr no_data z y x = Some (int_div (int_add b a) 2).
Proof.
  intros Hz Hv Hl Hr Ha Hmr Hb. destruct (len_slice0_read _ _ _ _ Hv) as [Hlen _].
  unfold new_value. rewrite Hlen. known_reads. settle_tests.
Qed.

(** Rule 3f, both neighbours missing, both second neighbours valid. *)
Lemma new_value_both_missing z y x a b :
  1 < z < Z.of_nat (shape0 arr) - 2 →
  getitem arr z y x = Some no_data →
  getitem arr (z - 1) y x = Some no_data → getitem arr (z + 1) y x = Some no_data →
  getitem arr (z - 2) y x = Some a → getitem arr (z + 2) y x = Some b →
  a ≠ no_data → b ≠ no_data →
  new_value arr no_data z y x = Some (int_div (int_add a b) 2).
Proof.
  intros Hz Hv Hl Hr Hml Hmr Ha Hb. destruct (len_slice0_read _ _ _ _ Hv) as [Hlen _].
  unfold new_value. rewrite Hlen. known_reads. settle_tests.
Qed.

(** With fewer than three samples every position is a first or a last
    one. *)
Lemma new_value_short z y x v :
  (shape0 arr < 3)%nat → getitem arr z y x = Some v →
  new_value arr no_data z y x = Some v.
Proof.
  intros HT Hv. destruct (len_slice0_read _ _ _ _ Hv) as [_ Hz].
  destruct (decide (z = 0)) as [->|]; [by apply new_value_first|].
  apply new_value_last; [lia|done].
Qed.
End sample_rule.

(** ** The rule reads a window of one trace *)

Lemma getitem_past_end (arr : ndarray) (z y x v d : Z) :
  full arr → getitem arr z y x = Some v → 0 <= d →
  getitem arr (z + d) y x = None ↔ Z.of_nat (shape0 arr) <= z + d.
Proof.
  intros Hf Hb%getitem_Some_in_bounds%in_bounds_spec Hd.
  rewrite (getitem_None _ _ _ _ Hf), <- not_true_iff_false, in_bounds_spec. lia.
Qed.

(** Two arrays whose traces at [(y, x)] agree on the positions [z-2 .. z+2],
    a position missing in one being missing in the other, get the same value
    at [z]. *)
Lemma new_value_window (arr1 arr2 : ndarray) (no_data : Z) (z y x : Z) :
  full arr1 → full arr2 →
  (∀ k, z - 2 <= k <= z + 2 → getitem arr1 k y x = getitem arr2 k y x) →
  new_value arr1 no_data z y x = new_value arr2 no_data z y x.
Proof.
  intros Hf1 Hf2 Hwin. unfold new_value.
  rewrite <- !Hwin by lia.
  destruct (getitem arr1 z y x) as [value|] eqn:Hv1; [simpl|done].
  assert (getitem arr2 z y x = Some value) as Hv2
    by (rewrite <- Hwin; [done|lia]).
  destruct (len_slice0_read _ _ _ _ _ Hv1) as [-> Hz1].
  destruct (len_slice0_read _ _ _ _ _ Hv2) as [-> Hz2]. simpl.
  set (T1 := Z.of_nat (shape0 arr1)) in *.
  set (T2 := Z.of_nat (shape0 arr2)) in *.
  pose proof (getitem_past_end arr1 z y x value 1 Hf1 Hv1 ltac:(lia)) as P1.
  pose proof (getitem_past_end arr2 z y x value 1 Hf2 Hv2 ltac:(lia)) as Q1.
  pose proof (getitem_past_end arr1 z y x value 2 Hf1 Hv1 ltac:(lia)) as P2.
  pose proof (getitem_past_end arr2 z y x value 2 Hf2 Hv2 ltac:(lia)) as Q2.
  rewrite <- !Hwin in Q1, Q2 by lia. fold T1 in P1, P2. fold T2 in Q1, Q2.
  assert (T1 <= z + 1 ↔ T2 <= z + 1) as R1 by tauto.
  assert (T1 <= z + 2 ↔ T2 <= z + 2) as R2 by tauto.
  clear P1 P2 Q1 Q2.
  assert (z = T1 - 1 ↔ z = T2 - 1) as E1 by lia.
  case_bool_decide as Hz0; [done|].
  rewrite (bool_decide_ext _ _ E1).
  case_bool_decide as HzT; [done|].
  assert (z = T1 - 2 ↔ z = T2 - 2) as E2 by lia.
  by rewrite (bool_decide_ext _ _ E2).
Qed.

(** ** Traces *)

Lemma trace_Some (arr : ndarray) (y x : Z) (l : list Z) :
  trace arr y x = Some l ↔
  Forall2 (λ z v, getitem arr z y x = Some v) (range (shape0 arr)) l.
Proof. apply mapM_Some. Qed.

Lemma trace_length (arr : ndarray) (y x : Z) (l : list Z) :
  trace arr y x = Some l → length l = shape0 arr.
Proof.
  intros H%length_mapM. unfold range in H. rewrite length_seqZ in H. lia.
Qed.

Lemma range_7 : range 7 = [0; 1; 2; 3; 4; 5; 6].
Proof. reflexivity. Qed.

(** * Part III: the claims of the specification *)

(** ** C1: the worked example *)

Example example_volume_run :
  interpolate_numba example_volume no_data_default =
  Some (mk_ndarray int16 7 1 1 example_filled).
Proof. reflexivity. Qed.

(** C1: in every volume, a trace that reads
    [5, -32768, 7, -32768, -32768, 9, -32768] (so T = 7) comes out, with the
    sentinel -32768, as exactly [5, 6, 7, 8, 8, 9, -32768]. *)
Theorem C1_example_trace (arr : ndarray) (y x : Z) :
  wf arr →
  trace arr y x = Some example_trace →
  ∃ res, interpolate_numba arr no_data_default = Some res ∧
         trace res y x = Some example_filled.
Proof.
  intros Hwf Htr.
  pose proof (trace_length _ _ _ _ Htr) as HT. simpl in HT.
  destruct (interpolate_numba_spec arr no_data_default Hwf)
    as (res & Hrun & _ & (E0 & _) & _ & Hres).
  exists res. split; [done|].
  apply trace_Some in Htr. apply trace_Some.
  rewrite E0. rewrite <- HT in *. rewrite range_7 in *.
  unfold example_trace in Htr.
  repeat match goal with
         | H : Forall2 _ (_ :: _) (_ :: _) |- _ =>
             apply Forall2_cons in H as [? H]
         end.
  clear Htr.
  assert (Z.of_nat (shape0 arr) = 7) as HT7 by lia.
  unfold example_filled, no_data_default in *.
  repeat apply Forall2_cons_2; [..|apply Forall2_nil_2].
  - change 5 with (wrap 16 5). apply Hres. by apply new_value_first.
  - change 6 with (wrap 16 (int_div (int_add 5 7) 2)). apply Hres.
    by apply new_value_both_valid; [lia|..].
  - change 7 with (wrap 16 7). apply Hres. by apply new_value_valid.
  - change 8 with (wrap 16 (int_div (int_add 9 7) 2)). apply Hres.
    by apply new_value_right_resolved; [lia|..].
  - change 8 with (wrap 16 (int_div (int_add 7 9) 2)). apply Hres.
    by apply new_value_left_resolved; [lia|..].
  - change 9 with (wrap 16 9). apply Hres. by apply new_value_valid.
  - change (-32768) with (wrap 16 (-32768)) at 1. apply Hres.
    by apply new_value_last; [lia|].
Qed.

Lemma C1_example_trace_witness :
  wf example_volume ∧
  trace example_volume 0 0 = Some example_trace ∧
  ∃ res, interpolate_numba example_volume no_data_default = Some res ∧
         trace res 0 0 = Some example_filled.
Proof.
  assert (wf example_volume) as Hwf by concrete_wf.
  split; [exact Hwf|]. split; [reflexivity|].
  apply (C1_example_trace example_volume 0 0 Hwf). reflexivity.
Defined.

(** ** C2: volumes with fewer than three time steps *)

(** C2 as stated would make the call fail on [short_volume]; it returns. *)
Lemma C2_counterexample :
  wf short_volume ∧ (shape0 short_volume < 3)%nat ∧
  interpolate_numba short_volume no_data_default =
    Some (mk_ndarray int16 2 1 1 [-32768; 4]) ∧
  interpolate_numba short_volume no_data_default ≠ None.
Proof.
  split; [concrete_wf|]. split; [simpl; lia|]. split; [reflexivity|done].
Qed.

(** C2, amended: on a volume whose time extent is smaller than 3 the call
    raises no error; it returns an [int16] volume of the shape of the input
    in which every sample is the input sample converted to [int16] (nothing
    is interpolated). *)
Theorem C2_short_volume_copied (arr : ndarray) (no_data : Z) :
  wf arr → (shape0 arr < 3)%nat →
  ∃ res, interpolate_numba arr no_data = Some res ∧
         arr_dtype res = int16 ∧ same_shape arr res ∧
         ∀ z y x v, getitem arr z y x = Some v →
                    getitem res z y x = Some (wrap 16 v).
Proof.
  intros Hwf HT.
  destruct (interpolate_numba_spec arr no_data Hwf)
    as (res & Hrun & Hd & Hs & _ & Hres).
  exists res. repeat (split; [done|]).
  intros z y x v Hv. apply Hres. by apply new_value_short.
Qed.

Lemma C2_short_volume_copied_witness :
  wf short_volume ∧ (shape0 short_volume < 3)%nat ∧
  ∃ res, interpolate_numba short_volume no_data_default = Some res ∧
         arr_dtype res = int16 ∧ same_shape short_volume res ∧
         ∀ z y x v, getitem short_volume z y x = Some v →
                    getitem res z y x = Some (wrap 16 v).
Proof.
  assert (wf short_volume) as Hwf by concrete_wf.
  assert (shape0 short_volume < 3)%nat as HT by (simpl; lia).
  split; [exact Hwf|]. split; [exact HT|].
  exact (C2_short_volume_copied short_volume no_data_default Hwf HT).
Defined.

(** ** C3: shape and width of the result *)

(** C3 as stated would give a 32-bit result for the 32-bit [wide_volume];
    the result is 16 bits wide. *)
Lemma C3_counterexample :
  wf wide_volume ∧
  ∃ res, interpolate_numba wide_volume no_data_default = Some res ∧
         bits (arr_dtype wide_volume) = 32 ∧ bits (arr_dtype res) = 16.
Proof. split; [concrete_wf|]. eexists. split; [reflexivity|done]. Qed.

(** C3, amended: for every input volume the call returns a volume built from
    a fresh array of zeros, of the shape of the input and of dtype [int16]
    (16-bit signed), whatever the integer width of the input; every sample
    of it is a 16-bit value. *)
Theorem C3_result_shape_int16 (arr : ndarray) (no_data : Z) :
  wf arr →
  ∃ res, interpolate_numba arr no_data = Some res ∧
         same_shape arr res ∧ arr_dtype res = int16 ∧
         length (buffer res) = length (buffer arr) ∧
         Forall (in_range 16) (buffer res).
Proof.
  intros Hwf.
  destruct (interpolate_numba_spec arr no_data Hwf)
    as (res & Hrun & Hd & Hs & [Hf Hr] & _).
  exists res. repeat (split; [done|]). split.
  - destruct Hwf as [Hfa _], Hs as (E0 & E1 & E2). congruence.
  - by rewrite Hd in Hr.
Qed.

Lemma C3_result_shape_int16_witness :
  wf wide_volume ∧
  ∃ res, interpolate_numba wide_volume no_data_default = Some res ∧
         same_shape wide_volume res ∧ arr_dtype res = int16 ∧
         length (buffer res) = length (buffer wide_volume) ∧
         Forall (in_range 16) (buffer res).
Proof.
  assert (wf wide_volume) as Hwf by concrete_wf.
  split; [exact Hwf|].
  exact (C3_result_shape_int16 wide_volume no_data_default Hwf).
Defined.

(** ** Values that survive the 16-bit store *)

(** A sample of an [int8] or [int16] volume is a 16-bit value. *)
Lemma narrow_sample (arr : ndarray) (z y x v : Z) :
  wf arr → bits (arr_dtype arr) <= 16 → getitem arr z y x = Some v →
  in_range 16 v.
Proof.
  intros Hwf Hb Hv. eapply (in_range_mono (bits (arr_dtype arr))).
  - by destruct (arr_dtype arr).
  - by eapply getitem_in_range.
Qed.

(** ** C4: a single isolated gap *)

(** A negative odd sum is rounded toward minus infinity: (-2 + -1) / 2 is
    -2, not -1. *)
Example odd_volume_run :
  interpolate_numba odd_volume no_data_default =
  Some (mk_ndarray int16 3 1 1 [-2; -2; -1]).
Proof. reflexivity. Qed.

(** C4 as stated would put floor((40000 + 40000) / 2) = 40000 at position 1
    of [wide_volume]; the 16-bit result holds -25536 there. *)
Lemma C4_counterexample :
  wf wide_volume ∧
  getitem wide_volume 0 0 0 = Some 40000 ∧
  getitem wide_volume 1 0 0 = Some no_data_default ∧
  getitem wide_volume 2 0 0 = Some 40000 ∧
  (40000 + 40000) / 2 = 40000 ∧
  ∃ res, interpolate_numba wide_volume no_data_default = Some res ∧
         getitem res 1 0 0 = Some (-25536).
Proof.
  split; [concrete_wf|]. repeat (split; [reflexivity|]).
  eexists. split; reflexivity.
Qed.

(** C4, amended: at an interior position [z] (0 < z < T-1) holding the
    sentinel, with both neighbours [a = input[z-1]] and [b = input[z+1]]
    valid, the output at [z] is the 16-bit conversion of the integer average
    of [a] and [b]; whenever [a] and [b] are representable in 16 bits (as
    in every [int8] or [int16] volume) it equals floor((a+b)/2), also when
    [a+b] is negative and odd. *)
Theorem C4_single_gap (arr : ndarray) (no_data : Z) (z y x a b : Z) :
  wf arr →
  0 < z < Z.of_nat (shape0 arr) - 1 →
  getitem arr z y x = Some no_data →
  getitem arr (z - 1) y x = Some a → getitem arr (z + 1) y x = Some b →
  a ≠ no_data → b ≠ no_data →
  ∃ res, interpolate_numba arr no_data = Some res ∧
         getitem res z y x = Some (wrap 16 (int_div (int_add a b) 2)) ∧
         (in_range 16 a → in_range 16 b →
            getitem res z y x = Some ((a + b) / 2) ∧
            2 * ((a + b) / 2) <= a + b < 2 * ((a + b) / 2) + 2) ∧
         (bits (arr_dtype arr) <= 16 →
            getitem res z y x = Some ((a + b) / 2)).
Proof.
  intros Hwf Hz Hv Ha Hb Hav Hbv.
  destruct (interpolate_numba_spec arr no_data Hwf)
    as (res & Hrun & _ & _ & _ & Hres).
  exists res. split; [done|].
  assert (getitem res z y x = Some (wrap 16 (int_div (int_add a b) 2))) as Hout.
  { apply Hres. by apply new_value_both_valid. }
  assert (in_range 16 a → in_range 16 b →
          getitem res z y x = Some ((a + b) / 2)) as Hsmall.
  { intros Ra Rb. destruct (average_in_range a b Ra Rb) as [Eadd Rq].
    rewrite Hout, Eadd. by rewrite wrap_id. }
  split; [done|]. split.
  - intros Ra Rb. split; [by apply Hsmall|].
    apply floor_half.
  - intros Hbits. apply Hsmall; by eapply narrow_sample.
Qed.

Lemma C4_single_gap_witness :
  wf odd_volume ∧
  0 < 1 < Z.of_nat (shape0 odd_volume) - 1 ∧
  getitem odd_volume 1 0 0 = Some no_data_default ∧
  getitem odd_volume (1 - 1) 0 0 = Some (-2) ∧
  getitem odd_volume (1 + 1) 0 0 = Some (-1) ∧
  -2 ≠ no_data_default ∧ -1 ≠ no_data_default ∧
  ∃ res, interpolate_numba odd_volume no_data_default = Some res ∧
         getitem res 1 0 0 = Some (wrap 16 (int_div (int_add (-2) (-1)) 2)) ∧
         (in_range 16 (-2) → in_range 16 (-1) →
            getitem res 1 0 0 = Some ((-2 + -1) / 2) ∧
            2 * ((-2 + -1) / 2) <= -2 + -1 < 2 * ((-2 + -1) / 2) + 2) ∧
         (bits (arr_dtype odd_volume) <= 16 →
            getitem res 1 0 0 = Some ((-2 + -1) / 2)).
Proof.
  assert (wf odd_volume) as Hwf by concrete_wf.
  assert (0 < 1 < Z.of_nat (shape0 odd_volume) - 1) as Hz by (simpl; lia).
  assert (-2 ≠ no_data_default) as Ha by done.
  assert (-1 ≠ no_data_default) as Hb by done.
  repeat (split; [done|]).
  exact (C4_single_gap odd_volume no_data_default 1 0 0 (-2) (-1)
           Hwf Hz eq_refl eq_refl eq_refl Ha Hb).
Defined.

(** ** C5: first and last samples *)

(** C5 as stated would leave 40000 at position 0 of [wide_volume]; the
    16-bit result holds -25536 there. *)
Lemma C5_counterexample :
  wf wide_volume ∧ getitem wide_volume 0 0 0 = Some 40000 ∧
  ∃ res, interpolate_numba wide_volume no_data_default = Some res ∧
         getitem res 0 0 0 = Some (-25536) ∧
         getitem res 0 0 0 ≠ getitem wide_volume 0 0 0.
Proof.
  split; [concrete_wf|]. split; [reflexivity|].
  eexists. split; [reflexivity|]. split; [reflexivity|done].
Qed.

(** C5, amended: in every trace the output at the first and at the last
    position is the input sample there converted to 16 bits, hence the input
    sample itself whenever that is representable in 16 bits (as in every
    [int8] or [int16] volume), also when it equals the sentinel. *)
Theorem C5_boundary_samples (arr : ndarray) (no_data : Z) (z y x v : Z) :
  wf arr →
  z = 0 ∨ z = Z.of_nat (shape0 arr) - 1 →
  getitem arr z y x = Some v →
  ∃ res, interpolate_numba arr no_data = Some res ∧
         getitem res z y x = Some (wrap 16 v) ∧
         (in_range 16 v → getitem res z y x = Some v) ∧
         (bits (arr_dtype arr) <= 16 → getitem res z y x = Some v).
Proof.
  intros Hwf Hz Hv.
  destruct (interpolate_numba_spec arr no_data Hwf)
    as (res & Hrun & _ & _ & _ & Hres).
  exists res. split; [done|].
  assert (getitem res z y x = Some (wrap 16 v)) as Hout.
  { apply Hres. destruct Hz as [->|Hz];
      [by apply new_value_first|by apply new_value_last]. }
  split; [done|]. split.
  - intros Rv. by rewrite Hout, wrap_id.
  - intros Hbits. rewrite Hout, wrap_id; [done|]. by eapply narrow_sample.
Qed.

Lemma C5_boundary_samples_witness :
  wf edge_volume ∧
  (3 = 0 ∨ 3 = Z.of_nat (shape0 edge_volume) - 1) ∧
  getitem edge_volume 3 0 0 = Some no_data_default ∧
  ∃ res, interpolate_numba edge_volume no_data_default = Some res ∧
         getitem res 3 0 0 = Some (wrap 16 no_data_default) ∧
         (in_range 16 no_data_default →
            getitem res 3 0 0 = Some no_data_default) ∧
         (bits (arr_dtype edge_volume) <= 16 →
            getitem res 3 0 0 = Some no_data_default).
Proof.
  assert (wf edge_volume) as Hwf by concrete_wf.
  assert (3 = 0 ∨ 3 = Z.of_nat (shape0 edge_volume) - 1) as Hz
    by (right; reflexivity).
  repeat (split; [done|]).
  exact (C5_boundary_samples edge_volume no_data_default 3 0 0 no_data_default
           Hwf Hz eq_refl).
Defined.

(** ** C6: valid samples *)

(** C6 as stated would leave the valid sample 40000 at position 1 of
    [wide_valid_volume], a trace without sentinel; the 16-bit result holds
    -25536 there. *)
Lemma C6_counterexample :
  wf wide_valid_volume ∧
  getitem wide_valid_volume 1 0 0 = Some 40000 ∧ 40000 ≠ no_data_default ∧
  trace wide_valid_volume 0 0 = Some [1; 40000; 3] ∧
  ∃ res, interpolate_numba wide_valid_volume no_data_default = Some res ∧
         getitem res 1 0 0 = Some (-25536) ∧
         trace res 0 0 = Some [1; -25536; 3].
Proof.
  split; [concrete_wf|]. do 3 (split; [done|]).
  eexists. split; [reflexivity|]. split; reflexivity.
Qed.

(** C6, amended: at every position whose input sample is not the sentinel
    the output is that sample converted to 16 bits, hence the sample itself
    whenever it is representable in 16 bits (as in every [int8] or [int16]
    volume); consequently a trace without sentinel whose samples are
    representable in 16 bits is returned unchanged. *)
Theorem C6_valid_unchanged (arr : ndarray) (no_data : Z) (y x : Z) :
  wf arr →
  ∃ res, interpolate_numba arr no_data = Some res ∧
    (∀ z v, getitem arr z y x = Some v → v ≠ no_data →
       getitem res z y x = Some (wrap 16 v) ∧
       (in_range 16 v → getitem res z y x = Some v) ∧
       (bits (arr_dtype arr) <= 16 → getitem res z y x = Some v)) ∧
    (∀ l, trace arr y x = Some l → no_data ∉ l →
       (Forall (in_range 16) l ∨ bits (arr_dtype arr) <= 16) →
       trace res y x = Some l).
Proof.
  intros Hwf.
  destruct (interpolate_numba_spec arr no_data Hwf)
    as (res & Hrun & _ & (E0 & _) & _ & Hres).
  exists res. split; [done|].
  assert (∀ z v, getitem arr z y x = Some v → v ≠ no_data →
                 getitem res z y x = Some (wrap 16 v)) as Hout.
  { intros z v Hv Hne. apply Hres. by apply new_value_valid. }
  split.
  - intros z v Hv Hne. split; [by apply Hout|]. split.
    + intros Rv. by rewrite (Hout z v), wrap_id.
    + intros Hbits. rewrite (Hout z v Hv Hne), wrap_id; [done|].
      by eapply narrow_sample.
  - intros l Htr Hnd Hsmall. apply trace_Some in Htr. apply trace_Some.
    rewrite E0. revert Htr Hnd Hsmall.
    generalize (range (shape0 arr)). intros zs Htr.
    induction Htr as [|z v zs l Hv Htr IH]; intros Hnd Hsmall; [constructor|].
    apply not_elem_of_cons in Hnd as [Hne Hnd].
    assert (in_range 16 v) as Rv.
    { destruct Hsmall as [Rl|Hbits]; [by inversion Rl|].
      by eapply narrow_sample. }
    constructor.
    + rewrite (Hout z v Hv), wrap_id; done.
    + apply IH; [done|]. destruct Hsmall as [Rl|Hbits]; [left|by right].
      by inversion Rl.
Qed.

Lemma C6_valid_unchanged_witness :
  wf clean_volume ∧
  ∃ res, interpolate_numba clean_volume no_data_default = Some res ∧
    (∀ z v, getitem clean_volume z 0 0 = Some v → v ≠ no_data_default →
       getitem res z 0 0 = Some (wrap 16 v) ∧
       (in_range 16 v → getitem res z 0 0 = Some v) ∧
       (bits (arr_dtype clean_volume) <= 16 → getitem res z 0 0 = Some v)) ∧
    (∀ l, trace clean_volume 0 0 = Some l → no_data_default ∉ l →
       (Forall (in_range 16) l ∨ bits (arr_dtype clean_volume) <= 16) →
       trace res 0 0 = Some l).
Proof.
  assert (wf clean_volume) as Hwf by concrete_wf.
  split; [exact Hwf|].
  exact (C6_valid_unchanged clean_volume no_data_default 0 0 Hwf).
Defined.

(** ** C7: the output at a position depends on a window of its trace *)

(** C7: the output at [(z, y, x)] is determined by the input samples of the
    trace [(y, x)] at the positions [z-2 .. z+2] that exist.  Two input
    volumes (of any dtypes, shapes and contents elsewhere) whose reads at
    those five positions of the trace agree, a missing position of one being
    missing in the other, get the same output sample at [(z, y, x)]. *)
Theorem C7_window_determines_output
    (arr1 arr2 : ndarray) (no_data : Z) (z y x : Z) :
  wf arr1 → wf arr2 →
  in_bounds arr1 z y x = true →
  (∀ k, z - 2 <= k <= z + 2 → getitem arr1 k y x = getitem arr2 k y x) →
  ∃ res1 res2,
    interpolate_numba arr1 no_data = Some res1 ∧
    interpolate_numba arr2 no_data = Some res2 ∧
    is_Some (getitem res1 z y x) ∧
    getitem res1 z y x = getitem res2 z y x.
Proof.
  intros Hwf1 Hwf2 Hb Hwin.
  destruct (interpolate_numba_spec arr1 no_data Hwf1)
    as (res1 & Hrun1 & _ & _ & _ & Hres1).
  destruct (interpolate_numba_spec arr2 no_data Hwf2)
    as (res2 & Hrun2 & _ & _ & _ & Hres2).
  exists res1, res2. do 2 (split; [done|]).
  destruct (new_value_is_Some arr1 no_data (wf_full _ Hwf1) z y x Hb) as [v Hv].
  pose proof Hv as Hv2.
  rewrite (new_value_window arr1 arr2 no_data z y x
             (wf_full _ Hwf1) (wf_full _ Hwf2) Hwin) in Hv2.
  rewrite (Hres1 _ _ _ _ Hv), (Hres2 _ _ _ _ Hv2). eauto.
Qed.

Lemma C7_window_determines_output_witness :
  wf left_volume ∧ wf right_volume ∧
  in_bounds left_volume 1 0 0 = true ∧
  (∀ k, 1 - 2 <= k <= 1 + 2 →
        getitem left_volume k 0 0 = getitem right_volume k 0 0) ∧
  ∃ res1 res2,
    interpolate_numba left_volume no_data_default = Some res1 ∧
    interpolate_numba right_volume no_data_default = Some res2 ∧
    is_Some (getitem res1 1 0 0) ∧
    getitem res1 1 0 0 = getitem res2 1 0 0.
Proof.
  assert (wf left_volume) as Hwf1 by concrete_wf.
  assert (wf right_volume) as Hwf2 by concrete_wf.
  assert (∀ k, 1 - 2 <= k <= 1 + 2 →
               getitem left_volume k 0 0 = getitem right_volume k 0 0) as Hwin.
  { intros k Hk.
    assert (k = -1 ∨ k = 0 ∨ k = 1 ∨ k = 2 ∨ k = 3) as Hcases by lia.
    destruct Hcases as [->|[->|[->|[->| ->]]]]; reflexivity. }
  split; [exact Hwf1|]. split; [exact Hwf2|]. split; [reflexivity|].
  split; [exact Hwin|].
  exact (C7_window_determines_output left_volume right_volume no_data_default
           1 0 0 Hwf1 Hwf2 eq_refl Hwin).
Defined.

(** ** C8: gaps next to a missing boundary sample *)

(** C8 as stated would leave the sentinel 40000 at position 1 of
    [wide_sentinel_volume], which begins [sentinel, sentinel, 7]; the
    16-bit result holds -25536 there. *)
Lemma C8_counterexample :
  wf wide_sentinel_volume ∧
  trace wide_sentinel_volume 0 0 = Some [40000; 40000; 7] ∧ 7 ≠ 40000 ∧
  ∃ res, interpolate_numba wide_sentinel_volume 40000 = Some res ∧
         getitem res 1 0 0 = Some (-25536) ∧
         getitem res 1 0 0 ≠ Some 40000.
Proof.
  split; [concrete_wf|]. do 2 (split; [done|]).
  eexists. split; [reflexivity|]. split; [reflexivity|done].
Qed.

(** C8, amended: with a sentinel representable in the 16-bit output (as the
    default -32768 is), in every trace that begins
    [sentinel, sentinel, b, ...] with [b] valid the output at position 1 is
    the sentinel.  More generally, when the first sample is the sentinel
    the sample at position 1 is copied (converted to 16 bits), and
    symmetrically when the last sample is the sentinel the sample at
    position T-2 is copied; a sentinel there stays a sentinel. *)
Theorem C8_edge_gap_unresolved (arr : ndarray) (no_data : Z) (y x : Z) :
  wf arr → in_range 16 no_data →
  ∃ res, interpolate_numba arr no_data = Some res ∧
    (∀ b, getitem arr 0 y x = Some no_data → getitem arr 1 y x = Some no_data →
          getitem arr 2 y x = Some b → b ≠ no_data →
          getitem res 1 y x = Some no_data) ∧
    (∀ v, getitem arr 0 y x = Some no_data → getitem arr 1 y x = Some v →
          getitem res 1 y x = Some (wrap 16 v)) ∧
    (∀ z v, z = Z.of_nat (shape0 arr) - 2 →
            getitem arr (z + 1) y x = Some no_data → getitem arr z y x = Some v →
            getitem res z y x = Some (wrap 16 v)) ∧
    (∀ z, z = Z.of_nat (shape0 arr) - 2 →
          getitem arr (z + 1) y x = Some no_data → getitem arr z y x = Some no_data →
          getitem res z y x = Some no_data).
Proof.
  intros Hwf Rnd.
  destruct (interpolate_numba_spec arr no_data Hwf)
    as (res & Hrun & _ & _ & _ & Hres).
  pose proof (wf_full _ Hwf) as Hf.
  exists res. split; [done|].
  assert (∀ v, getitem arr 0 y x = Some no_data → getitem arr 1 y x = Some v →
               getitem res 1 y x = Some (wrap 16 v)) as Hleft.
  { intros v H0 H1. apply Hres. by apply new_value_left_edge. }
  assert (∀ z v, z = Z.of_nat (shape0 arr) - 2 →
                 getitem arr (z + 1) y x = Some no_data → getitem arr z y x = Some v →
                 getitem res z y x = Some (wrap 16 v)) as Hright.
  { intros z v Hz H1 Hv. apply Hres. by apply new_value_right_edge. }
  split; [|split; [done|split; [done|]]].
  - intros b H0 H1 _ _. rewrite (Hleft no_data H0 H1). by rewrite wrap_id.
  - intros z Hz H1 Hv. rewrite (Hright z no_data Hz H1 Hv). by rewrite wrap_id.
Qed.

Lemma C8_edge_gap_unresolved_witness :
  wf double_gap_volume ∧ in_range 16 no_data_default ∧
  ∃ res, interpolate_numba double_gap_volume no_data_default = Some res ∧
    (∀ b, getitem double_gap_volume 0 0 0 = Some no_data_default →
          getitem double_gap_volume 1 0 0 = Some no_data_default →
          getitem double_gap_volume 2 0 0 = Some b → b ≠ no_data_default →
          getitem res 1 0 0 = Some no_data_default) ∧
    (∀ v, getitem double_gap_volume 0 0 0 = Some no_data_default →
          getitem double_gap_volume 1 0 0 = Some v →
          getitem res 1 0 0 = Some (wrap 16 v)) ∧
    (∀ z v, z = Z.of_nat (shape0 double_gap_volume) - 2 →
            getitem double_gap_volume (z + 1) 0 0 = Some no_data_default →
            getitem double_gap_volume z 0 0 = Some v →
            getitem res z 0 0 = Some (wrap 16 v)) ∧
    (∀ z, z = Z.of_nat (shape0 double_gap_volume) - 2 →
          getitem double_gap_volume (z + 1) 0 0 = Some no_data_default →
          getitem double_gap_volume z 0 0 = Some no_data_default →
          getitem res z 0 0 = Some no_data_default).
Proof.
  assert (wf double_gap_volume) as Hwf by concrete_wf.
  assert (in_range 16 no_data_default) as Rnd
    by (unfold in_range, no_data_default; simpl; lia).
  split; [exact Hwf|]. split; [exact Rnd|].
  exact (C8_edge_gap_unresolved double_gap_volume no_data_default 0 0 Hwf Rnd).
Defined.

(** ** C9: a run of three sentinels *)

(** C9 as stated would put the truncated average of 40000 and 40000, that is
    40000, in the middle of the run of [wide_triple_volume]; the 16-bit
    result holds -25536.  In [odd_triple_volume] the average of -2 and -1
    truncated toward zero is -1; the result holds -2.  In
    [wide_sentinel_triple_volume], with the sentinel 40000, the outer
    samples of the run would stay 40000; the result holds -25536. *)
Lemma C9_counterexample :
  (wf wide_triple_volume ∧
   trace wide_triple_volume 0 0 =
     Some [40000; no_data_default; no_data_default; no_data_default; 40000] ∧
   (40000 + 40000) ÷ 2 = 40000 ∧
   ∃ res, interpolate_numba wide_triple_volume no_data_default = Some res ∧
          getitem res 2 0 0 = Some (-25536)) ∧
  (wf odd_triple_volume ∧
   trace odd_triple_volume 0 0 =
     Some [-2; no_data_default; no_data_default; no_data_default; -1] ∧
   (-2 + -1) ÷ 2 = -1 ∧
   ∃ res, interpolate_numba odd_triple_volume no_data_default = Some res ∧
          getitem res 2 0 0 = Some (-2)) ∧
  (wf wide_sentinel_triple_volume ∧
   trace wide_sentinel_triple_volume 0 0 = Some [1; 40000; 40000; 40000; 2] ∧
   ∃ res, interpolate_numba wide_sentinel_triple_volume 40000 = Some res ∧
          getitem res 1 0 0 = Some (-25536) ∧
          getitem res 3 0 0 = Some (-25536)).
Proof.
  split; [|split].
  - split; [concrete_wf|]. do 2 (split; [reflexivity|]).
    eexists. split; reflexivity.
  - split; [concrete_wf|]. do 2 (split; [reflexivity|]).
    eexists. split; reflexivity.
  - split; [concrete_wf|]. split; [reflexivity|].
    eexists. split; [reflexivity|]. split; reflexivity.
Qed.

(** C9, amended: with a sentinel representable in 16 bits, in a run of
    exactly three sentinels at interior positions z, z+1, z+2 (1 <= z,
    z+2 <= T-2) between valid [a = input[z-1]] and [b = input[z+3]], the
    outer two samples of the run stay the sentinel and the middle one
    becomes the 16-bit conversion of the integer average of [a] and [b];
    whenever [a] and [b] are representable in 16 bits that is floor((a+b)/2),
    the average rounded toward minus infinity, which is the average
    truncated toward zero unless [a+b] is negative and odd. *)
Theorem C9_triple_gap (arr : ndarray) (no_data : Z) (z y x a b : Z) :
  wf arr → in_range 16 no_data →
  1 <= z → z + 2 <= Z.of_nat (shape0 arr) - 2 →
  getitem arr (z - 1) y x = Some a → a ≠ no_data →
  getitem arr z y x = Some no_data →
  getitem arr (z + 1) y x = Some no_data →
  getitem arr (z + 2) y x = Some no_data →
  getitem arr (z + 3) y x = Some b → b ≠ no_data →
  ∃ res, interpolate_numba arr no_data = Some res ∧
    getitem res z y x = Some no_data ∧
    getitem res (z + 2) y x = Some no_data ∧
    getitem res (z + 1) y x = Some (wrap 16 (int_div (int_add a b) 2)) ∧
    (in_range 16 a → in_range 16 b →
       getitem res (z + 1) y x = Some ((a + b) / 2) ∧
       2 * ((a + b) / 2) <= a + b < 2 * ((a + b) / 2) + 2 ∧
       (0 <= a + b ∨ Z.even (a + b) = true → (a + b) / 2 = (a + b) ÷ 2)).
Proof.
  intros Hwf Rnd Hz1 Hz2 Ha Hav H0 H1 H2 Hb Hbv.
  destruct (interpolate_numba_spec arr no_data Hwf)
    as (res & Hrun & _ & _ & _ & Hres).
  exists res. split; [done|].
  assert (getitem res (z + 1) y x = Some (wrap 16 (int_div (int_add a b) 2)))
    as Hmid.
  { apply Hres. apply new_value_both_missing; try done; try lia.
    - by replace (z + 1 - 1) with z by lia.
    - by replace (z + 1 + 1) with (z + 2) by lia.
    - by replace (z + 1 - 2) with (z - 1) by lia.
    - by replace (z + 1 + 2) with (z + 3) by lia. }
  split; [|split; [|split; [done|]]].
  - replace (Some no_data) with (Some (wrap 16 no_data))
      by (by rewrite wrap_id).
    apply Hres.
    apply (new_value_right_unresolved arr no_data z y x a); try done. lia.
  - replace (Some no_data) with (Some (wrap 16 no_data))
      by (by rewrite wrap_id).
    apply Hres.
    apply (new_value_left_unresolved arr no_data (z + 2) y x b);
      try done; try lia.
    + by replace (z + 2 - 1) with (z + 1) by lia.
    + by replace (z + 2 + 1) with (z + 3) by lia.
    + by replace (z + 2 - 2) with z by lia.
  - intros Ra Rb. destruct (average_in_range a b Ra Rb) as [Eadd Rq].
    split; [|split].
    + rewrite Hmid, Eadd. by rewrite wrap_id.
    + apply floor_half.
    + intros [Hpos|Heven].
      * symmetry. by apply Z.quot_div_nonneg.
      * apply Z.even_spec in Heven as [k ->].
        rewrite (Z.mul_comm 2 k), Z.div_mul, Z.quot_mul; lia.
Qed.

Lemma C9_triple_gap_witness :
  wf odd_triple_volume ∧ in_range 16 no_data_default ∧
  1 <= 1 ∧ 1 + 2 <= Z.of_nat (shape0 odd_triple_volume) - 2 ∧
  getitem odd_triple_volume (1 - 1) 0 0 = Some (-2) ∧ -2 ≠ no_data_default ∧
  getitem odd_triple_volume 1 0 0 = Some no_data_default ∧
  getitem odd_triple_volume (1 + 1) 0 0 = Some no_data_default ∧
  getitem odd_triple_volume (1 + 2) 0 0 = Some no_data_default ∧
  getitem odd_triple_volume (1 + 3) 0 0 = Some (-1) ∧ -1 ≠ no_data_default ∧
  ∃ res, interpolate_numba odd_triple_volume no_data_default = Some res ∧
    getitem res 1 0 0 = Some no_data_default ∧
    getitem res (1 + 2) 0 0 = Some no_data_default ∧
    getitem res (1 + 1) 0 0 = Some (wrap 16 (int_div (int_add (-2) (-1)) 2)) ∧
    (in_range 16 (-2) → in_range 16 (-1) →
       getitem res (1 + 1) 0 0 = Some ((-2 + -1) / 2) ∧
       2 * ((-2 + -1) / 2) <= -2 + -1 < 2 * ((-2 + -1) / 2) + 2 ∧
       (0 <= -2 + -1 ∨ Z.even (-2 + -1) = true → (-2 + -1) / 2 = (-2 + -1) ÷ 2)).
Proof.
  assert (wf odd_triple_volume) as Hwf by concrete_wf.
  assert (in_range 16 no_data_default) as Rnd
    by (unfold in_range, no_data_default; simpl; lia).
  assert (1 <= 1) as Hz1 by lia.
  assert (1 + 2 <= Z.of_nat (shape0 odd_triple_volume) - 2) as Hz2
    by (simpl; lia).
  assert (-2 ≠ no_data_default) as Ha by done.
  assert (-1 ≠ no_data_default) as Hb by done.
  repeat (split; [done|]).
  exact (C9_triple_gap odd_triple_volume no_data_default 1 0 0 (-2) (-1)
           Hwf Rnd Hz1 Hz2 eq_refl Ha eq_refl eq_refl eq_refl eq_refl Hb).
Defined.

(** ** C10: every read is inside the array *)

(** Reads before the first and past the last time step fault. *)
Example example_volume_faults :
  getitem example_volume (-1) 0 0 = None ∧ getitem example_volume 7 0 0 = None.
Proof. split; reflexivity. Qed.

(** C10: a read outside the time axis (a negative index or one past the
    end) faults in this model, and no call faults: for every input volume
    the value of every sample is computed, and the whole call returns,
    without such a read.  The two-step reads at [z-2] and [z+2] are guarded
    by the tests [z == 1] and [z == T-2]. *)
Theorem C10_reads_in_bounds (arr : ndarray) (no_data : Z) :
  wf arr →
  (∀ z y x, ¬ (0 <= z < Z.of_nat (shape0 arr)) → getitem arr z y x = None) ∧
  (∀ z y x, in_bounds arr z y x = true →
            is_Some (new_value arr no_data z y x)) ∧
  is_Some (interpolate_numba arr no_data).
Proof.
  intros Hwf. pose proof (wf_full _ Hwf) as Hf. split; [|split].
  - intros z y x Hz. apply (getitem_None _ _ _ _ Hf).
    apply not_true_iff_false. rewrite in_bounds_spec. tauto.
  - intros z y x Hb. by apply new_value_is_Some.
  - destruct (interpolate_numba_filled arr no_data Hf) as (res & -> & _). eauto.
Qed.

Lemma C10_reads_in_bounds_witness :
  wf double_gap_volume ∧
  (∀ z y x, ¬ (0 <= z < Z.of_nat (shape0 double_gap_volume)) →
            getitem double_gap_volume z y x = None) ∧
  (∀ z y x, in_bounds double_gap_volume z y x = true →
            is_Some (new_value double_gap_volume no_data_default z y x)) ∧
  is_Some (interpolate_numba double_gap_volume no_data_default).
Proof.
  assert (wf double_gap_volume) as Hwf by concrete_wf.
  split; [exact Hwf|].
  exact (C10_reads_in_bounds double_gap_volume no_data_default Hwf).
Defined.


(** * Part IV: further properties of [interpolate_numba] *)

(** ** The result, cell by cell *)

(** Every cell of the result, inside or outside the array, read through
    [getitem]. *)
Lemma interpolate_numba_getitem (arr : ndarray) (no_data : Z) :
  wf arr →
  ∃ res, interpolate_numba arr no_data = Some res ∧
         arr_dtype res = int16 ∧ same_shape arr res ∧ wf res ∧
         ∀ z y x, getitem res z y x = wrap 16 <$> new_value arr no_data z y x.
Proof.
  intros Hwf.
  destruct (interpolate_numba_spec arr no_data Hwf)
    as (res & Hrun & Hd & Hs & Hwr & Hres).
  exists res. repeat (split; [done|]). intros z y x.
  destruct (new_value arr no_data z y x) as [v|] eqn:Hv; simpl;
    [by apply Hres|].
  apply (getitem_None _ _ _ _ (wf_full _ Hwr)).
  rewrite (in_bounds_same_shape arr res) by done.
  destruct (in_bounds arr z y x) eqn:Hb; [|done].
  destruct (new_value_is_Some arr no_data (wf_full _ Hwf) z y x Hb) as [v Hv'].
  congruence.
Qed.

(** The positions of a trace that can be read are those of the time axis. *)
Lemma getitem_trace_range (arr : ndarray) (z y x v k : Z) :
  full arr → getitem arr z y x = Some v →
  (is_Some (getitem arr k y x) ↔ 0 <= k < Z.of_nat (shape0 arr)).
Proof.
  intros Hf Hv. split.
  - intros [w Hw%getitem_Some_in_bounds%in_bounds_spec]. lia.
  - intros Hk. by eapply getitem_same_trace.
Qed.

Lemma int_add_comm (a b : Z) : int_add a b = int_add b a.
Proof. unfold int_add. by rewrite Z.add_comm. Qed.

(** ** The branches of the kernel against the decision table *)

(** The nested tests of the kernel compute [fill_rule]: the guards
    [z == 1] and [z == T-2] are the cases where the sample two steps away
    does not exist. *)
Lemma new_value_fill_rule (arr : ndarray) (no_data : Z) (z y x : Z) :
  full arr → new_value arr no_data z y x = fill_rule arr no_data z y x.
Proof.
  intros Hf. unfold new_value, fill_rule, left_anchor, right_anchor.
  destruct (getitem arr z y x) as [value|] eqn:Hv; simpl; [|done].
  destruct (len_slice0_read _ _ _ _ _ Hv) as [-> Hz]. simpl.
  pose proof (getitem_trace_range arr z y x value (z - 1) Hf Hv) as R1.
  pose proof (getitem_trace_range arr z y x value (z + 1) Hf Hv) as R2.
  pose proof (getitem_trace_range arr z y x value (z - 2) Hf Hv) as R3.
  pose proof (getitem_trace_range arr z y x value (z + 2) Hf Hv) as R4.
  destruct (getitem arr (z - 1) y x) as [left|];
    destruct (getitem arr (z + 1) y x) as [right|];
    destruct (getitem arr (z - 2) y x) as [more_left|];
    destruct (getitem arr (z + 2) y x) as [more_right|];
    rewrite ?is_Some_alt in *; simpl; unfold nearest_valid;
    repeat (case_bool_decide; simpl);
    first [done | exfalso; lia | exfalso; tauto | by rewrite int_add_comm
          | exfalso; intuition lia ].
Qed.

Lemma nearest_valid_Some (no_data : Z) (near far : option Z) (a : Z) :
  nearest_valid no_data near far = Some a ↔
  a ≠ no_data ∧ (near = Some a ∨ (near = Some no_data ∧ far = Some a)).
Proof.
  unfold nearest_valid. destruct near as [n|], far as [f|];
    repeat (case_bool_decide; simpl);
    (split; [intros ?; simplify_eq; by auto
            |intros (? & [?|[? ?]]); by simplify_eq]).
Qed.

Lemma nearest_valid_None (no_data : Z) (near far : option Z) :
  nearest_valid no_data near far = None ↔
  near = None ∨ (near = Some no_data ∧ (far = None ∨ far = Some no_data)).
Proof.
  unfold nearest_valid. destruct near as [n|], far as [f|];
    repeat (case_bool_decide; simpl);
    (split; [intros ?; simplify_eq; by auto
            |intros [?|[? [?|?]]]; by simplify_eq]).
Qed.

(** The result read against the decision table. *)
Lemma interpolate_numba_fill_rule (arr : ndarray) (no_data : Z) :
  wf arr →
  ∃ res, interpolate_numba arr no_data = Some res ∧
         arr_dtype res = int16 ∧ same_shape arr res ∧ wf res ∧
         ∀ z y x, getitem res z y x = wrap 16 <$> fill_rule arr no_data z y x.
Proof.
  intros Hwf.
  destruct (interpolate_numba_getitem arr no_data Hwf)
    as (res & Hrun & Hd & Hs & Hwr & Hres).
  exists res. repeat (split; [done|]). intros z y x.
  by rewrite Hres, (new_value_fill_rule _ _ _ _ _ (wf_full _ Hwf)).
Qed.

(** A sentinel without a valid sample within two steps on one side is
    kept. *)
Lemma fill_rule_unresolved (arr : ndarray) (no_data : Z) (z y x : Z) :
  getitem arr z y x = Some no_data →
  left_anchor arr no_data z y x = None ∨
  right_anchor arr no_data z y x = None →
  fill_rule arr no_data z y x = Some no_data.
Proof.
  intros Hv Hnone. unfold fill_rule. rewrite Hv. simpl.
  rewrite bool_decide_eq_true_2 by done.
  destruct Hnone as [-> | ->]; [done|].
  by destruct (left_anchor arr no_data z y x).
Qed.

(** A sentinel with valid samples within two steps on both sides becomes
    their average. *)
Lemma fill_rule_resolved (arr : ndarray) (no_data : Z) (z y x a b : Z) :
  getitem arr z y x = Some no_data →
  left_anchor arr no_data z y x = Some a →
  right_anchor arr no_data z y x = Some b →
  fill_rule arr no_data z y x = Some (int_div (int_add a b) 2).
Proof.
  intros Hv Ha Hb. unfold fill_rule. rewrite Hv, Ha, Hb. simpl.
  by rewrite bool_decide_eq_true_2.
Qed.

(** The average stored for two 16-bit samples lies between them. *)
Lemma average_between (a b : Z) :
  in_range 16 a → in_range 16 b →
  wrap 16 (int_div (int_add a b) 2) = (a + b) / 2 ∧
  Z.min a b <= (a + b) / 2 <= Z.max a b.
Proof.
  intros Ra Rb. destruct (average_in_range a b Ra Rb) as [-> Rq].
  split; [by apply wrap_id|].
  pose proof (floor_half (a + b)). unfold int_div. lia.
Qed.

(** ** X1: the decision table *)

(** X1: every sample of the result is the 16-bit conversion of the decision
    table's value: a valid input sample is kept; a sentinel with a valid
    sample within two steps on each side (the neighbour, else the sample
    two steps away) becomes the floor average of the nearest such samples;
    any other sentinel is kept.  Cells outside the array are outside the
    result. *)
Theorem X1_decision_table (arr : ndarray) (no_data : Z) :
  wf arr →
  ∃ res, interpolate_numba arr no_data = Some res ∧
         ∀ z y x, getitem res z y x = wrap 16 <$> fill_rule arr no_data z y x.
Proof.
  intros Hwf.
  destruct (interpolate_numba_fill_rule arr no_data Hwf)
    as (res & Hrun & _ & _ & _ & Hres).
  by exists res.
Qed.

Lemma X1_decision_table_witness :
  wf example_volume ∧
  ∃ res, interpolate_numba example_volume no_data_default = Some res ∧
         ∀ z y x, getitem res z y x =
                  wrap 16 <$> fill_rule example_volume no_data_default z y x.
Proof.
  assert (wf example_volume) as Hwf by concrete_wf.
  split; [exact Hwf|].
  exact (X1_decision_table example_volume no_data_default Hwf).
Defined.

(** ** X2: a gap of two samples *)

(** X2: a run of two sentinels between valid samples [a] and [b] is filled
    completely, both positions with the same value, the 16-bit conversion of
    the average of [a] and [b]: floor((a+b)/2) when [a] and [b] are 16-bit
    values. *)
Theorem X2_two_sample_gap (arr : ndarray) (no_data : Z) (z y x a b : Z) :
  wf arr →
  getitem arr (z - 1) y x = Some a → a ≠ no_data →
  getitem arr z y x = Some no_data →
  getitem arr (z + 1) y x = Some no_data →
  getitem arr (z + 2) y x = Some b → b ≠ no_data →
  ∃ res, interpolate_numba arr no_data = Some res ∧
    getitem res z y x = Some (wrap 16 (int_div (int_add a b) 2)) ∧
    getitem res (z + 1) y x = Some (wrap 16 (int_div (int_add a b) 2)) ∧
    (in_range 16 a → in_range 16 b →
       getitem res z y x = Some ((a + b) / 2) ∧
       getitem res (z + 1) y x = Some ((a + b) / 2)).
Proof.
  intros Hwf Ha Hav H0 H1 Hb Hbv.
  destruct (interpolate_numba_fill_rule arr no_data Hwf)
    as (res & Hrun & _ & _ & _ & Hres).
  exists res. split; [done|].
  assert (getitem res z y x = Some (wrap 16 (int_div (int_add a b) 2))) as E0.
  { rewrite Hres, (fill_rule_resolved arr no_data z y x a b); [done..| |].
    - apply nearest_valid_Some. auto.
    - apply nearest_valid_Some. auto. }
  assert (getitem res (z + 1) y x = Some (wrap 16 (int_div (int_add a b) 2)))
    as E1.
  { rewrite Hres, (fill_rule_resolved arr no_data (z + 1) y x a b); [done..| |].
    - apply nearest_valid_Some. split; [done|]. right.
      replace (z + 1 - 1) with z by lia.
      by replace (z + 1 - 2) with (z - 1) by lia.
    - apply nearest_valid_Some. split; [done|]. left.
      by replace (z + 1 + 1) with (z + 2) by lia. }
  do 2 (split; [done|]). intros Ra Rb.
  destruct (average_between a b Ra Rb) as [E _]. by rewrite E0, E1, E.
Qed.

Lemma X2_two_sample_gap_witness :
  wf two_gap_volume ∧
  getitem two_gap_volume (1 - 1) 0 0 = Some 3 ∧ 3 ≠ no_data_default ∧
  getitem two_gap_volume 1 0 0 = Some no_data_default ∧
  getitem two_gap_volume (1 + 1) 0 0 = Some no_data_default ∧
  getitem two_gap_volume (1 + 2) 0 0 = Some 8 ∧ 8 ≠ no_data_default ∧
  ∃ res, interpolate_numba two_gap_volume no_data_default = Some res ∧
    getitem res 1 0 0 = Some (wrap 16 (int_div (int_add 3 8) 2)) ∧
    getitem res (1 + 1) 0 0 = Some (wrap 16 (int_div (int_add 3 8) 2)) ∧
    (in_range 16 3 → in_range 16 8 →
       getitem res 1 0 0 = Some ((3 + 8) / 2) ∧
       getitem res (1 + 1) 0 0 = Some ((3 + 8) / 2)).
Proof.
  assert (wf two_gap_volume) as Hwf by concrete_wf.
  assert (3 ≠ no_data_default) as Ha by done.
  assert (8 ≠ no_data_default) as Hb by done.
  repeat (split; [done|]).
  exact (X2_two_sample_gap two_gap_volume no_data_default 1 0 0 3 8
           Hwf eq_refl Ha eq_refl eq_refl eq_refl Hb).
Defined.

(** ** X3: long gaps are left alone *)

(** X3: in a run of four or more consecutive sentinels (positions
    [first .. last] with [first + 3 <= last]) no sample is filled, whatever
    surrounds the run: every position of the run holds the sentinel
    (converted to 16 bits) in the result. *)
Theorem X3_long_gap_kept (arr : ndarray) (no_data : Z) (first last y x : Z) :
  wf arr → first + 3 <= last →
  (∀ k, first <= k <= last → getitem arr k y x = Some no_data) →
  ∃ res, interpolate_numba arr no_data = Some res ∧
    ∀ k, first <= k <= last →
         getitem res k y x = Some (wrap 16 no_data) ∧
         (in_range 16 no_data → getitem res k y x = Some no_data).
Proof.
  intros Hwf Hlen Hrun.
  destruct (interpolate_numba_fill_rule arr no_data Hwf)
    as (res & Hres_run & _ & _ & _ & Hres).
  exists res. split; [done|]. intros k Hk.
  assert (getitem res k y x = Some (wrap 16 no_data)) as E.
  { rewrite Hres, fill_rule_unresolved; [done|by apply Hrun|].
    destruct (decide (first + 2 <= k)) as [Hleft|Hright].
    - left. apply nearest_valid_None. right.
      rewrite !Hrun by lia. auto.
    - right. apply nearest_valid_None. right.
      rewrite !Hrun by lia. auto. }
  split; [done|]. intros Rnd. by rewrite E, wrap_id.
Qed.

Lemma X3_long_gap_kept_witness :
  wf long_gap_volume ∧ 1 + 3 <= 4 ∧
  (∀ k, 1 <= k <= 4 → getitem long_gap_volume k 0 0 = Some no_data_default) ∧
  ∃ res, interpolate_numba long_gap_volume no_data_default = Some res ∧
    ∀ k, 1 <= k <= 4 →
         getitem res k 0 0 = Some (wrap 16 no_data_default) ∧
         (in_range 16 no_data_default →
            getitem res k 0 0 = Some no_data_default).
Proof.
  assert (wf long_gap_volume) as Hwf by concrete_wf.
  assert (1 + 3 <= 4) as Hlen by lia.
  assert (∀ k, 1 <= k <= 4 →
               getitem long_gap_volume k 0 0 = Some no_data_default) as Hrun.
  { intros k Hk. assert (k = 1 ∨ k = 2 ∨ k = 3 ∨ k = 4) as Hc by lia.
    destruct Hc as [->|[->|[->| ->]]]; reflexivity. }
  split; [exact Hwf|]. split; [exact Hlen|]. split; [exact Hrun|].
  exact (X3_long_gap_kept long_gap_volume no_data_default 1 4 0 0
           Hwf Hlen Hrun).
Defined.

(** ** X4: a trace without any valid sample *)



(** ** X5: a filled value lies between the samples it is made from *)

(** X5: in a volume of 16-bit samples ([int8] or [int16]) every output
    sample is either the input sample at its position, or, at a sentinel,
    a value between two valid input samples of the same trace, one at most
    two steps before and one at most two steps after the position: the fill
    never leaves the range spanned by the samples it is made from. *)
Theorem X5_no_overshoot (arr : ndarray) (no_data : Z) (z y x v : Z) :
  wf arr → bits (arr_dtype arr) <= 16 →
  getitem arr z y x = Some v →
  ∃ res out, interpolate_numba arr no_data = Some res ∧
    getitem res z y x = Some out ∧
    (out = v ∨
     v = no_data ∧
     ∃ i j a b, 1 <= i <= 2 ∧ 1 <= j <= 2 ∧
       getitem arr (z - i) y x = Some a ∧ a ≠ no_data ∧
       getitem arr (z + j) y x = Some b ∧ b ≠ no_data ∧
       Z.min a b <= out <= Z.max a b).
Proof.
  intros Hwf Hbits Hv.
  destruct (interpolate_numba_fill_rule arr no_data Hwf)
    as (res & Hrun & _ & _ & _ & Hres).
  exists res. specialize (Hres z y x). unfold fill_rule in Hres.
  rewrite Hv in Hres. simpl in Hres.
  pose proof (narrow_sample arr z y x v Hwf Hbits Hv) as Rv.
  case_bool_decide as Hnd.
  - destruct (left_anchor arr no_data z y x) as [a|] eqn:Ha;
      [destruct (right_anchor arr no_data z y x) as [b|] eqn:Hb|];
      simpl in Hres;
      try (exists v; rewrite Hres, wrap_id by done; by auto).
    apply nearest_valid_Some in Ha as [Hav Ha], Hb as [Hbv Hb].
    assert (∃ i, 1 <= i <= 2 ∧ getitem arr (z - i) y x = Some a)
      as (i & Hi & Hai).
    { destruct Ha as [?|[_ ?]]; [exists 1|exists 2]; split; done || lia. }
    assert (∃ j, 1 <= j <= 2 ∧ getitem arr (z + j) y x = Some b)
      as (j & Hj & Hbj).
    { destruct Hb as [?|[_ ?]]; [exists 1|exists 2]; split; done || lia. }
    destruct (average_between a b) as [E Hbetween];
      [by eapply narrow_sample..|].
    exists ((a + b) / 2). split; [done|].
    split; [by rewrite Hres; simpl; rewrite E|].
    right. split; [done|]. exists i, j, a, b. done.
  - exists v. split; [done|]. split; [|by left].
    rewrite Hres. simpl. by rewrite wrap_id.
Qed.

Lemma X5_no_overshoot_witness :
  wf two_gap_volume ∧ bits (arr_dtype two_gap_volume) <= 16 ∧
  getitem two_gap_volume 2 0 0 = Some no_data_default ∧
  ∃ res out, interpolate_numba two_gap_volume no_data_default = Some res ∧
    getitem res 2 0 0 = Some out ∧
    (out = no_data_default ∨
     no_data_default = no_data_default ∧
     ∃ i j a b, 1 <= i <= 2 ∧ 1 <= j <= 2 ∧
       getitem two_gap_volume (2 - i) 0 0 = Some a ∧ a ≠ no_data_default ∧
       getitem two_gap_volume (2 + j) 0 0 = Some b ∧ b ≠ no_data_default ∧
       Z.min a b <= out <= Z.max a b).
Proof.
  assert (wf two_gap_volume) as Hwf by concrete_wf.
  assert (bits (arr_dtype two_gap_volume) <= 16) as Hbits by (simpl; lia).
  split; [exact Hwf|]. split; [exact Hbits|]. split; [reflexivity|].
  exact (X5_no_overshoot two_gap_volume no_data_default 2 0 0 no_data_default
           Hwf Hbits eq_refl).
Defined.

(** ** X6: the sentinels that remain *)

(** X6: with the default sentinel -32768 and a volume of 16-bit samples, a
    sample of the result is the sentinel exactly when the input sample is
    the sentinel and was not filled, that is when one side has no valid
    sample within two steps.  A filled value is never mistaken for a
    sentinel, and a sentinel never appears where the input had a valid
    sample. *)
Theorem X6_remaining_sentinels (arr : ndarray) (z y x : Z) :
  wf arr → bits (arr_dtype arr) <= 16 →
  ∃ res, interpolate_numba arr no_data_default = Some res ∧
    (getitem res z y x = Some no_data_default ↔
     getitem arr z y x = Some no_data_default ∧
     (left_anchor arr no_data_default z y x = None ∨
      right_anchor arr no_data_default z y x = None)).
Proof.
  intros Hwf Hbits.
  destruct (interpolate_numba_fill_rule arr no_data_default Hwf)
    as (res & Hrun & _ & _ & _ & Hres).
  exists res. split; [done|]. rewrite Hres. unfold fill_rule.
  destruct (getitem arr z y x) as [v|] eqn:Hv; simpl; [|by split; [|intros []]].
  pose proof (narrow_sample arr z y x v Hwf Hbits Hv) as Rv.
  case_bool_decide as Hnd.
  - subst v.
    destruct (left_anchor arr no_data_default z y x) as [a|] eqn:Ha;
      [|simpl; rewrite wrap_id by done; split; auto].
    destruct (right_anchor arr no_data_default z y x) as [b|] eqn:Hb;
      [|simpl; rewrite wrap_id by done; split; auto].
    simpl. split; [|by intros [_ [?|?]]].
    apply nearest_valid_Some in Ha as [Hav Ha], Hb as [Hbv Hb].
    assert (in_range 16 a) as Ra
      by (destruct Ha as [?|[_ ?]]; by eapply narrow_sample).
    assert (in_range 16 b) as Rb
      by (destruct Hb as [?|[_ ?]]; by eapply narrow_sample).
    destruct (average_between a b Ra Rb) as [-> Hbetween].
    intros [= E]. exfalso. revert Ra Rb Hav Hbv Hbetween. rewrite E.
    unfold in_range, no_data_default. change (2 ^ (16 - 1)) with 32768. lia.
  - simpl. rewrite wrap_id by done. split; [congruence|].
    intros [[= ?] _]. done.
Qed.

Lemma X6_remaining_sentinels_witness :
  wf example_volume ∧ bits (arr_dtype example_volume) <= 16 ∧
  ∃ res, interpolate_numba example_volume no_data_default = Some res ∧
    (getitem res 6 0 0 = Some no_data_default ↔
     getitem example_volume 6 0 0 = Some no_data_default ∧
     (left_anchor example_volume no_data_default 6 0 0 = None ∨
      right_anchor example_volume no_data_default 6 0 0 = None)).
Proof.
  assert (wf example_volume) as Hwf by concrete_wf.
  assert (bits (arr_dtype example_volume) <= 16) as Hbits by (simpl; lia).
  split; [exact Hwf|]. split; [exact Hbits|].
  exact (X6_remaining_sentinels example_volume 6 0 0 Hwf Hbits).
Defined.

(** ** X7: no direction of time is preferred *)

Lemma fill_rule_mirror (arr arr' : ndarray) (no_data : Z) (c y x y' x' : Z) :
  (∀ k, getitem arr' k y' x' = getitem arr (c - k) y x) →
  ∀ z, fill_rule arr' no_data z y' x' = fill_rule arr no_data (c - z) y x.
Proof.
  intros Hmir z. unfold fill_rule, left_anchor, right_anchor.
  rewrite !Hmir.
  replace (c - (z - 1)) with (c - z + 1) by lia.
  replace (c - (z - 2)) with (c - z + 2) by lia.
  replace (c - (z + 1)) with (c - z - 1) by lia.
  replace (c - (z + 2)) with (c - z - 2) by lia.
  destruct (getitem arr (c - z) y x) as [v|]; simpl; [|done].
  case_bool_decide; [|done].
  destruct (nearest_valid no_data (getitem arr (c - z + 1) y x)
              (getitem arr (c - z + 2) y x)) as [b|],
           (nearest_valid no_data (getitem arr (c - z - 1) y x)
              (getitem arr (c - z - 2) y x)) as [a|]; try done.
  by rewrite int_add_comm.
Qed.

(** X7: the fill treats both directions of time alike.  If the trace
    [(y', x')] of one volume is the trace [(y, x)] of another read backwards
    (position [k] of the first is position [c - k] of the second, for every
    [k]), the filled traces are mirror images of each other in the same
    way. *)
Theorem X7_time_reversal (arr arr' : ndarray) (no_data : Z)
    (c y x y' x' : Z) :
  wf arr → wf arr' →
  (∀ k, getitem arr' k y' x' = getitem arr (c - k) y x) →
  ∃ res res',
    interpolate_numba arr no_data = Some res ∧
    interpolate_numba arr' no_data = Some res' ∧
    ∀ k, getitem res' k y' x' = getitem res (c - k) y x.
Proof.
  intros Hwf Hwf' Hmir.
  destruct (interpolate_numba_fill_rule arr no_data Hwf)
    as (res & Hrun & _ & _ & _ & Hres).
  destruct (interpolate_numba_fill_rule arr' no_data Hwf')
    as (res' & Hrun' & _ & _ & _ & Hres').
  exists res, res'. do 2 (split; [done|]). intros k.
  by rewrite Hres, Hres', (fill_rule_mirror arr arr' no_data c y x y' x' Hmir).
Qed.

Lemma X7_time_reversal_witness :
  wf example_volume ∧ wf example_volume_reversed ∧
  (∀ k, getitem example_volume_reversed k 0 0 =
        getitem example_volume (6 - k) 0 0) ∧
  ∃ res res',
    interpolate_numba example_volume no_data_default = Some res ∧
    interpolate_numba example_volume_reversed no_data_default = Some res' ∧
    ∀ k, getitem res' k 0 0 = getitem res (6 - k) 0 0.
Proof.
  assert (wf example_volume) as Hwf by concrete_wf.
  assert (wf example_volume_reversed) as Hwf' by concrete_wf.
  assert (∀ k, getitem example_volume_reversed k 0 0 =
               getitem example_volume (6 - k) 0 0) as Hmir.
  { intros k.
    assert (k < 0 ∨ 6 < k ∨ k = 0 ∨ k = 1 ∨ k = 2 ∨ k = 3 ∨ k = 4 ∨ k = 5
            ∨ k = 6) as Hc by lia.
    destruct Hc as [Hk|[Hk|[->|[->|[->|[->|[->|[->| ->]]]]]]]];
      try reflexivity.
    - unfold getitem, in_bounds. simpl.
      by rewrite !(bool_decide_eq_false_2 (0 <= _ < 7)) by lia.
    - unfold getitem, in_bounds. simpl.
      by rewrite !(bool_decide_eq_false_2 (0 <= _ < 7)) by lia. }
  split; [exact Hwf|]. split; [exact Hwf'|]. split; [exact Hmir|].
  exact (X7_time_reversal example_volume example_volume_reversed
           no_data_default 6 0 0 0 0 Hwf Hwf' Hmir).
Defined.

(** ** X8: a second pass *)



